(** * The non-interactive session driver of the CLI

    A shallow embedding of [runNonInteractive]
    (packages/cli/src/nonInteractiveCli.ts) and the properties of its turn
    loop, its JSONL framing and its tool-call dispatch.

    Conventions of the embedding.
    - JavaScript strings are modelled by the bytes of their UTF-8 form
      ([string]); a lone surrogate, which has no UTF-8 form, is outside the
      model.
    - [turnCount] and [maxSessionTurns] are integers ([Z]); a JavaScript
      number counts exactly up to 2^53, which no session reaches.
    - The agent client, the tool executor, the clock, the abort signal and the
      telemetry probe are oracles over an abstract [World]; every call and
      every write of the driver is recorded, in order, in a trace of
      [Effect]s.
    - The two loops that need not terminate ([while (true)] and [for await])
      are driven by fuel; with fuel exhausted the functions return the trace
      produced so far, so a statement over every fuel is a statement over
      every prefix of every execution.
    - The EPIPE listener installed on [process.stdout] only registers a
      callback; a broken pipe is outside the model. *)

From Stdlib Require Import ZArith NArith List String Ascii Bool Lia.
From Stdlib Require Import DecimalString.
Import ListNotations.

Local Open Scope string_scope.
Local Open Scope Z_scope.

(* ================================================================== *)
(** ** JSON values, [JSON.stringify] and a reader                      *)
(* ================================================================== *)

Module Json.

(** JSON values.  Numbers are restricted to the integers, which
    [JSON.stringify] prints in plain decimal. *)
#[warnings="-register-all"]
Inductive t : Type :=
| JNull
| JBool (b : bool)
| JNum (n : Z)
| JStr (s : string)
| JArr (items : list t)
| JObj (fields : list (string * t)).

(** An object literal as JavaScript evaluates it for [JSON.stringify]: a
    property whose value is [undefined] is left out. *)
Fixpoint js_object (props : list (string * option t)) : list (string * t) :=
  match props with
  | [] => []
  | (k, Some v) :: rest => (k, v) :: js_object rest
  | (_, None) :: rest => js_object rest
  end.

Fixpoint lookup (k : string) (fields : list (string * t)) : option t :=
  match fields with
  | [] => None
  | (k', v) :: rest => if String.eqb k k' then Some v else lookup k rest
  end.

(** Property access [v.k]; [None] stands for [undefined]. *)
Definition get (k : string) (v : t) : option t :=
  match v with
  | JObj fields => lookup k fields
  | _ => None
  end.

Definition hex_digit (n : N) : ascii :=
  match n with
  | 0 => "0" | 1 => "1" | 2 => "2" | 3 => "3" | 4 => "4" | 5 => "5"
  | 6 => "6" | 7 => "7" | 8 => "8" | 9 => "9" | 10 => "a" | 11 => "b"
  | 12 => "c" | 13 => "d" | 14 => "e" | _ => "f"
  end%N%char.

(** One character of QuoteJSONString (ECMA-262, 25.5.2.3). *)
Definition quote_char (c : ascii) : string :=
  let n := N_of_ascii c in
  if Ascii.eqb c "034" then String "\" (String "034" "")
  else if Ascii.eqb c "\" then "\\"
  else if N.eqb n 8 then "\b"
  else if N.eqb n 9 then "\t"
  else if N.eqb n 10 then "\n"
  else if N.eqb n 12 then "\f"
  else if N.eqb n 13 then "\r"
  else if N.ltb n 32 then
    String "\" (String "u" (String "0" (String "0"
      (String (hex_digit (N.div n 16)) (String (hex_digit (N.modulo n 16)) "")))))
  else String c "".

Fixpoint quote_chars (s : string) : string :=
  match s with
  | EmptyString => ""
  | String c rest => quote_char c ++ quote_chars rest
  end.

Definition QuoteJSONString (s : string) : string :=
  String "034" (quote_chars s ++ String "034" "").

Definition decimal (n : Z) : string := NilZero.string_of_int (Z.to_int n).

(** [JSON.stringify(v)] without indentation. *)
Fixpoint stringify (v : t) : string :=
  match v with
  | JNull => "null"
  | JBool true => "true"
  | JBool false => "false"
  | JNum n => decimal n
  | JStr s => QuoteJSONString s
  | JArr items =>
      "[" ++ (fix elements (l : list t) : string :=
                match l with
                | [] => ""
                | x :: rest =>
                    stringify x ++
                    match rest with
                    | [] => ""
                    | _ :: _ => "," ++ elements rest
                    end
                end) items ++ "]"
  | JObj fields =>
      "{" ++ (fix members (l : list (string * t)) : string :=
                match l with
                | [] => ""
                | (k, x) :: rest =>
                    QuoteJSONString k ++ ":" ++ stringify x ++
                    match rest with
                    | [] => ""
                    | _ :: _ => "," ++ members rest
                    end
                end) fields ++ "}"
  end.

(** *** A reader for JSON text (RFC 8259), used to state what a consumer of
    the JSONL stream obtains from a line. *)

Definition is_ws (c : ascii) : bool :=
  let n := N_of_ascii c in
  (N.eqb n 32 || N.eqb n 9 || N.eqb n 10 || N.eqb n 13)%bool.

Fixpoint skip_ws (s : string) : string :=
  match s with
  | String c rest => if is_ws c then skip_ws rest else s
  | EmptyString => s
  end.

Definition hex_value (c : ascii) : option N :=
  let n := N_of_ascii c in
  if (N.leb 48 n && N.leb n 57)%bool then Some (n - 48)%N
  else if (N.leb 97 n && N.leb n 102)%bool then Some (n - 87)%N
  else if (N.leb 65 n && N.leb n 70)%bool then Some (n - 55)%N
  else None.

Definition hex4 (a b c d : ascii) : option N :=
  match hex_value a, hex_value b, hex_value c, hex_value d with
  | Some x, Some y, Some z, Some w => Some (((x * 16 + y) * 16 + z) * 16 + w)%N
  | _, _, _, _ => None
  end.

(** UTF-8 bytes of a code point of the basic plane; a surrogate has none. *)
Definition utf8 (n : N) : option string :=
  (if N.ltb n 128 then Some (String (ascii_of_N n) "")
  else if N.ltb n 2048 then
    Some (String (ascii_of_N (192 + N.div n 64))
         (String (ascii_of_N (128 + N.modulo n 64)) ""))
  else if (N.leb 55296 n && N.leb n 57343)%bool then None
  else
    Some (String (ascii_of_N (224 + N.div n 4096))
         (String (ascii_of_N (128 + N.modulo (N.div n 64) 64))
         (String (ascii_of_N (128 + N.modulo n 64)) ""))))%N.

Definition unescape (c : ascii) : option ascii :=
  if Ascii.eqb c "034" then Some "034"%char
  else if Ascii.eqb c "\" then Some "\"%char
  else if Ascii.eqb c "/" then Some "/"%char
  else if Ascii.eqb c "b" then Some "008"%char
  else if Ascii.eqb c "f" then Some "012"%char
  else if Ascii.eqb c "n" then Some "010"%char
  else if Ascii.eqb c "r" then Some "013"%char
  else if Ascii.eqb c "t" then Some "009"%char
  else None.

Definition prepend (p : string) (r : option (string * string)) : option (string * string) :=
  match r with
  | Some (s, rest) => Some (p ++ s, rest)
  | None => None
  end.

(** The characters of a string literal, after its opening quote. *)
Fixpoint read_chars (s : string) : option (string * string) :=
  match s with
  | EmptyString => None
  | String c rest =>
      if Ascii.eqb c "034" then Some ("", rest)
      else if Ascii.eqb c "\" then
        match rest with
        | EmptyString => None
        | String e rest1 =>
            if Ascii.eqb e "u" then
              match rest1 with
              | String h1 (String h2 (String h3 (String h4 rest2))) =>
                  match hex4 h1 h2 h3 h4 with
                  | Some n =>
                      match utf8 n with
                      | Some bytes => prepend bytes (read_chars rest2)
                      | None => None
                      end
                  | None => None
                  end
              | _ => None
              end
            else
              match unescape e with
              | Some ch => prepend (String ch "") (read_chars rest1)
              | None => None
              end
        end
      else if N.ltb (N_of_ascii c) 32 then None
      else prepend (String c "") (read_chars rest)
  end.

Definition is_digit (c : ascii) : bool :=
  (N.leb 48 (N_of_ascii c) && N.leb (N_of_ascii c) 57)%bool.

Fixpoint read_digits (acc : Z) (s : string) : Z * string :=
  match s with
  | String c rest =>
      if is_digit c then read_digits (acc * 10 + Z.of_N (N_of_ascii c - 48)) rest
      else (acc, s)
  | EmptyString => (acc, s)
  end.

(** An integer literal: no leading zero, no fraction, no exponent. *)
Definition read_int (s : string) : option (Z * string) :=
  match s with
  | String c rest =>
      if Ascii.eqb c "0" then Some (0, rest)
      else if is_digit c then Some (read_digits 0 s)
      else None
  | EmptyString => None
  end.

Definition read_number (s : string) : option (Z * string) :=
  match s with
  | String c rest =>
      let r := if Ascii.eqb c "-"
               then match read_int rest with
                    | Some (n, rest') => Some (- n, rest')
                    | None => None
                    end
               else read_int s in
      match r with
      | Some (n, String d rest') =>
          if (Ascii.eqb d "." || Ascii.eqb d "e" || Ascii.eqb d "E" || is_digit d)%bool
          then None else r
      | _ => r
      end
  | EmptyString => None
  end.

Fixpoint expect (word : string) (s : string) : option string :=
  match word, s with
  | EmptyString, _ => Some s
  | String a word', String b s' => if Ascii.eqb a b then expect word' s' else None
  | String _ _, EmptyString => None
  end.

Fixpoint read_value (fuel : nat) (s : string) {struct fuel} : option (t * string) :=
  match fuel with
  | O => None
  | S fuel' =>
      match skip_ws s with
      | EmptyString => None
      | String c rest =>
          if Ascii.eqb c "034" then
            match read_chars rest with
            | Some (str, rest') => Some (JStr str, rest')
            | None => None
            end
          else if Ascii.eqb c "[" then
            match skip_ws rest with
            | String "]" rest' => Some (JArr [], rest')
            | _ =>
                match read_elements fuel' rest with
                | Some (items, rest') => Some (JArr items, rest')
                | None => None
                end
            end
          else if Ascii.eqb c "{" then
            match skip_ws rest with
            | String "}" rest' => Some (JObj [], rest')
            | _ =>
                match read_members fuel' rest with
                | Some (fields, rest') => Some (JObj fields, rest')
                | None => None
                end
            end
          else if Ascii.eqb c "n" then
            match expect "ull" rest with Some rest' => Some (JNull, rest') | None => None end
          else if Ascii.eqb c "t" then
            match expect "rue" rest with Some rest' => Some (JBool true, rest') | None => None end
          else if Ascii.eqb c "f" then
            match expect "alse" rest with Some rest' => Some (JBool false, rest') | None => None end
          else
            match read_number (String c rest) with
            | Some (n, rest') => Some (JNum n, rest')
            | None => None
            end
      end
  end

with read_elements (fuel : nat) (s : string) {struct fuel} : option (list t * string) :=
  match fuel with
  | O => None
  | S fuel' =>
      match read_value fuel' s with
      | None => None
      | Some (v, rest) =>
          match skip_ws rest with
          | String "]" rest' => Some ([v], rest')
          | String "," rest' =>
              match read_elements fuel' rest' with
              | Some (vs, rest'') => Some (v :: vs, rest'')
              | None => None
              end
          | _ => None
          end
      end
  end

with read_members (fuel : nat) (s : string) {struct fuel} : option (list (string * t) * string) :=
  match fuel with
  | O => None
  | S fuel' =>
      match skip_ws s with
      | String "034" rest =>
          match read_chars rest with
          | None => None
          | Some (k, rest1) =>
              match skip_ws rest1 with
              | String ":" rest2 =>
                  match read_value fuel' rest2 with
                  | None => None
                  | Some (v, rest3) =>
                      match skip_ws rest3 with
                      | String "}" rest' => Some ([(k, v)], rest')
                      | String "," rest' =>
                          match read_members fuel' rest' with
                          | Some (kvs, rest'') => Some ((k, v) :: kvs, rest'')
                          | None => None
                          end
                      | _ => None
                      end
                  end
              | _ => None
              end
          end
      | _ => None
      end
  end.

Fixpoint has_newline (s : string) : bool :=
  match s with
  | EmptyString => false
  | String c rest => (Ascii.eqb c "010" || has_newline rest)%bool
  end.

(** [JSON.parse(text)]; [None] when the text is not one JSON value. *)
Definition parse (text : string) : option t :=
  match read_value (2 * String.length text + 2) text with
  | Some (v, rest) =>
      match skip_ws rest with
      | EmptyString => Some v
      | String _ _ => None
      end
  | None => None
  end.

(** Induction on JSON values, through the lists they nest. *)
Fixpoint json_rect' (P : t -> Prop)
    (Hnull : P JNull) (Hbool : forall b, P (JBool b)) (Hnum : forall n, P (JNum n))
    (Hstr : forall s, P (JStr s))
    (Harr : forall items, Forall P items -> P (JArr items))
    (Hobj : forall fields, Forall (fun kv => P (snd kv)) fields -> P (JObj fields))
    (v : t) {struct v} : P v :=
  match v with
  | JNull => Hnull
  | JBool b => Hbool b
  | JNum n => Hnum n
  | JStr s => Hstr s
  | JArr items =>
      Harr items
        ((fix all (l : list t) : Forall P l :=
            match l with
            | [] => Forall_nil P
            | x :: rest =>
                Forall_cons x (json_rect' P Hnull Hbool Hnum Hstr Harr Hobj x) (all rest)
            end) items)
  | JObj fields =>
      Hobj fields
        ((fix all (l : list (string * t)) : Forall (fun kv => P (snd kv)) l :=
            match l with
            | [] => Forall_nil _
            | kv :: rest =>
                Forall_cons kv (json_rect' P Hnull Hbool Hnum Hstr Harr Hobj (snd kv)) (all rest)
            end) fields)
  end.

End Json.



(* ================================================================== *)
(** ** Data model                                                      *)
(* ================================================================== *)

Import Json.

Local Open Scope list_scope.

Definition newline : string := String "010" "".

(** A content part: text, or an opaque structured payload. *)
Inductive Part : Type :=
| text_part (text : string)
| payload_part (payload : Json.t).

(** [Content]: a role and its parts ([parts?: Part[]]). *)
Record Content : Type := mkContent {
  role : string;
  parts : option (list Part)
}.

(** The value of a tool-call-request event.  The identifier and the
    arguments may be missing. *)
Record ToolCallRequest : Type := mkToolCallRequest {
  request_name : string;
  request_args : option Json.t;
  request_callId : option string;
  request_isClientInitiated : bool;
  request_prompt_id : string
}.

(** [FunctionCall] of the model API: every field optional but the name. *)
Record FunctionCall : Type := mkFunctionCall {
  fc_name : string;
  fc_args : option Json.t;
  fc_id : option string
}.

(** What the driver hands to the tool executor. *)
Record ToolCallRequestInfo : Type := mkToolCallRequestInfo {
  callId : string;
  name : string;
  args : Json.t;
  isClientInitiated : bool;
  prompt_id_of : string
}.

(** An entry of a tool's response parts: a string, a part, or a falsy value
    that is not a string ([null], [undefined]). *)
Inductive PartUnion : Type :=
| PU_string (s : string)
| PU_part (p : Part)
| PU_falsy.

Inductive PartListUnion : Type :=
| single (part : PartUnion)
| many (entries : list PartUnion).

Record JsError : Type := mkError { message : string }.

Record ToolCallResponse : Type := mkToolCallResponse {
  resultDisplay : option string;
  error : option JsError;
  responseParts : option PartListUnion
}.

Inductive GeminiEvent : Type :=
| ContentEvent (value : string)
| ToolCallRequestEvent (value : ToolCallRequest)
| OtherEvent (kind : string).

(** A thrown value, by its text. *)
Definition Exn : Type := string.

(** What awaiting the next item of the response stream gives. *)
Inductive StreamStep : Type :=
| Yield (event : GeminiEvent)
| Done
| StreamRejected (e : Exn).

Inductive ToolOutcome : Type :=
| ToolResolved (response : ToolCallResponse)
| ToolRejected (e : Exn).

Record Config : Type := mkConfig {
  debugMode : bool;
  maxSessionTurns : Z;
  authType : option string
}.

(** The collaborators of the driver, as oracles over the state of the world. *)
Record Env (World : Type) : Type := mkEnv {
  openStream : list Part -> string -> World -> World;
  nextEvent : World -> StreamStep * World;
  aborted : World -> bool;
  now : World -> Z * World;
  toISOString : Z -> string;
  executeToolCall : ToolCallRequestInfo -> World -> ToolOutcome * World;
  isTelemetrySdkInitialized : World -> bool;
  parseAndFormatApiError : Exn -> option string -> string
}.

Arguments openStream {World}.
Arguments nextEvent {World}.
Arguments aborted {World}.
Arguments now {World}.
Arguments toISOString {World}.
Arguments executeToolCall {World}.
Arguments isTelemetrySdkInitialized {World}.
Arguments parseAndFormatApiError {World}.

(** *** What the driver writes *)

Inductive Output : Type :=
| RawText (fragment : string)
| JsonLine (record : Json.t)
| FinalNewline.

Definition output_text (o : Output) : string :=
  match o with
  | RawText fragment => fragment
  | JsonLine record => Json.stringify record ++ newline
  | FinalNewline => newline
  end.

Inductive Diagnostic : Type :=
| MaxTurnsNotice
| CancelNotice
| ToolErrorNotice (tool detail : string)
| ApiErrorNotice (text : string).

Definition diagnostic_text (d : Diagnostic) : string :=
  match d with
  | MaxTurnsNotice =>
      newline ++ " Reached max session turns for this session. Increase the number of turns by specifying maxSessionTurns in settings.json."
  | CancelNotice => "Operation cancelled."
  | ToolErrorNotice tool detail => "Error executing tool " ++ tool ++ ": " ++ detail
  | ApiErrorNotice text => text
  end.

(** The observable steps of a run, in order.  [BeginTurn] is a marker: it
    records the turn counter and the batch with which a turn starts. *)
Inductive Effect : Type :=
| PatchConsole (debug : bool)
| BeginTurn (turnCount : Z) (currentMessages : list Content)
| SendMessageStream (sent : list Part) (prompt_id : string)
| NextEvent (step : StreamStep)
| StdoutWrite (o : Output)
| ConsoleError (d : Diagnostic)
| ExecuteToolCall (requestInfo : ToolCallRequestInfo) (outcome : ToolOutcome)
| CleanupConsole
| ShutdownTelemetry
| ProcessExit (code : Z).

(** Which [return] of the loop was taken. *)
Inductive ReturnSite : Type :=
| AtMaxTurns
| AtCancel
| AtNoToolCalls.

Inductive DrainResult : Type :=
| StreamDone (functionCalls : list FunctionCall)
| DrainCancelled
| DrainRejected (e : Exn)
| DrainPending.

Inductive TurnResult : Type :=
| TurnContinue (next : list Content)
| TurnReturn (site : ReturnSite)
| TurnRejected (e : Exn)
| TurnPending.

Inductive LoopResult : Type :=
| Returned (site : ReturnSite)
| Rejected (e : Exn)
| Pending.

Inductive RunResult : Type :=
| Resolved (site : ReturnSite)
| Exited (code : Z)
| Unfinished.

(* ================================================================== *)
(** ** The driver                                                      *)
(* ================================================================== *)

(** [a || b] on an optional string: the empty string is falsy. *)
Definition or_else (a : option string) (b : string) : string :=
  match a with
  | Some s => if String.eqb s "" then b else s
  | None => b
  end.

(** [currentMessages[0]?.parts || []] *)
Definition first_parts (currentMessages : list Content) : list Part :=
  match currentMessages with
  | [] => []
  | m :: _ => match parts m with Some ps => ps | None => [] end
  end.

(** [{ role: 'user', parts }] *)
Definition user_message (ps : list Part) : Content :=
  {| role := "user"; parts := Some ps |}.

(** The three JSONL records, field by field in the order of the object
    literals of the source. *)
Definition token_record (value timestamp : string) : Json.t :=
  JObj (js_object
    [("type", Some (JStr "token"));
     ("data", Some (JStr value));
     ("timestamp", Some (JStr timestamp))]).

Definition tool_call_record (r : ToolCallRequest) (timestamp : string) : Json.t :=
  JObj (js_object
    [("type", Some (JStr "tool_call"));
     ("data", Some (JObj (js_object
        [("name", Some (JStr (request_name r)));
         ("args", request_args r);
         ("call_id", option_map JStr (request_callId r))])));
     ("timestamp", Some (JStr timestamp))]).

Definition tool_result_record (callId : string) (fc : FunctionCall)
    (toolResponse : ToolCallResponse) (timestamp : string) : Json.t :=
  JObj (js_object
    [("type", Some (JStr "tool_result"));
     ("data", Some (JObj (js_object
        [("call_id", Some (JStr callId));
         ("name", Some (JStr (fc_name fc)));
         ("result", Some (JStr
            (or_else (resultDisplay toolResponse)
               (match error toolResponse with
                | Some err => message err
                | None => "Success"
                end))));
         ("error", Some (match error toolResponse with
                         | Some err => JStr (message err)
                         | None => JNull
                         end))])));
     ("timestamp", Some (JStr timestamp))]).

(** [if (toolResponse.responseParts)] *)
Definition truthy_parts (rp : option PartListUnion) : bool :=
  match rp with
  | None => false
  | Some (many _) => true
  | Some (single (PU_string s)) => negb (String.eqb s "")
  | Some (single (PU_part _)) => true
  | Some (single PU_falsy) => false
  end.

(** The body of [for (const part of parts)]. *)
Definition push_part (toolResponseParts : list Part) (part : PartUnion) : list Part :=
  match part with
  | PU_string s => toolResponseParts ++ [text_part s]
  | PU_part p => toolResponseParts ++ [p]
  | PU_falsy => toolResponseParts
  end.

(** [if (toolResponse.responseParts) { ... }]: a sequence is gone through,
    a single part is gone through as a sequence of one. *)
Definition push_response_parts (toolResponseParts : list Part)
    (rp : option PartListUnion) : list Part :=
  if truthy_parts rp then
    match rp with
    | Some (many entries) => fold_left push_part entries toolResponseParts
    | Some (single part) => fold_left push_part [part] toolResponseParts
    | None => toolResponseParts
    end
  else toolResponseParts.

(** The [FunctionCall] the driver keeps of a request. *)
Definition function_call_of (toolCallRequest : ToolCallRequest) : FunctionCall :=
  {| fc_name := request_name toolCallRequest;
     fc_args := request_args toolCallRequest;
     fc_id := request_callId toolCallRequest |}.

Section Driver.

Context {World : Type}.
Variable env : Env World.
Variable config : Config.
Variable prompt_id : string.
Variable jsonlOutput : bool.

(** [new Date().toISOString()] *)
Definition timestamp (w : World) : string * World :=
  let (t, w') := now env w in (toISOString env t, w').

(** The body of [for await] for one event, after the abort check. *)
Definition on_event (event : GeminiEvent) (functionCalls : list FunctionCall)
    (w : World) : list FunctionCall * World * list Effect :=
  match event with
  | ContentEvent value =>
      if jsonlOutput then
        let (ts, w') := timestamp w in
        (functionCalls, w', [StdoutWrite (JsonLine (token_record value ts))])
      else (functionCalls, w, [StdoutWrite (RawText value)])
  | ToolCallRequestEvent toolCallRequest =>
      let fc := function_call_of toolCallRequest in
      if jsonlOutput then
        let (ts, w') := timestamp w in
        (functionCalls ++ [fc], w',
         [StdoutWrite (JsonLine (tool_call_record toolCallRequest ts))])
      else (functionCalls ++ [fc], w, [])
  | OtherEvent _ => (functionCalls, w, [])
  end.

(** [for await (const event of responseStream)] *)
Fixpoint drain (fuel : nat) (functionCalls : list FunctionCall) (w : World)
    : DrainResult * World * list Effect :=
  match fuel with
  | O => (DrainPending, w, [])
  | S fuel' =>
      let (step, w1) := nextEvent env w in
      match step with
      | Done => (StreamDone functionCalls, w1, [NextEvent step])
      | StreamRejected e => (DrainRejected e, w1, [NextEvent step])
      | Yield event =>
          if aborted env w1 then
            (DrainCancelled, w1, [NextEvent step; ConsoleError CancelNotice])
          else
            let '(functionCalls', w2, out) := on_event event functionCalls w1 in
            let '(r, w3, out') := drain fuel' functionCalls' w2 in
            (r, w3, NextEvent step :: out ++ out')
      end
  end.

(** [fc.id ?? `${fc.name}-${Date.now()}`] *)
Definition resolve_callId (fc : FunctionCall) (w : World) : string * World :=
  match fc_id fc with
  | Some id => (id, w)
  | None => let (t, w') := now env w in ((fc_name fc ++ "-" ++ decimal t)%string, w')
  end.

(** [requestInfo]; [fc.args ?? {}] puts the empty object for arguments
    that are [undefined] or [null]. *)
Definition request_info (callId : string) (fc : FunctionCall) : ToolCallRequestInfo :=
  {| callId := callId;
     name := fc_name fc;
     args := match fc_args fc with
             | None | Some JNull => JObj []
             | Some a => a
             end;
     isClientInitiated := false;
     prompt_id_of := prompt_id |}.

(** The body of [for (const fc of functionCalls)]; [inl e] when the executor
    throws. *)
Definition run_tool (fc : FunctionCall) (toolResponseParts : list Part) (w : World)
    : (Exn + list Part) * World * list Effect :=
  let (callId, w1) := resolve_callId fc w in
  let requestInfo := request_info callId fc in
  let (outcome, w2) := executeToolCall env requestInfo w1 in
  match outcome with
  | ToolRejected e => (inl e, w2, [ExecuteToolCall requestInfo outcome])
  | ToolResolved toolResponse =>
      let '(w3, out_record) :=
        if jsonlOutput then
          let (ts, w') := timestamp w2 in
          (w', [StdoutWrite (JsonLine (tool_result_record callId fc toolResponse ts))])
        else (w2, []) in
      let out_error :=
        match error toolResponse with
        | Some err =>
            [ConsoleError (ToolErrorNotice (fc_name fc)
               (or_else (resultDisplay toolResponse) (message err)))]
        | None => []
        end in
      (inr (push_response_parts toolResponseParts (responseParts toolResponse)),
       w3,
       ExecuteToolCall requestInfo outcome :: out_record ++ out_error)
  end.

(** [for (const fc of functionCalls)] *)
Fixpoint run_tools (functionCalls : list FunctionCall) (toolResponseParts : list Part)
    (w : World) : (Exn + list Part) * World * list Effect :=
  match functionCalls with
  | [] => (inr toolResponseParts, w, [])
  | fc :: rest =>
      let '(r, w1, out) := run_tool fc toolResponseParts w in
      match r with
      | inl e => (inl e, w1, out)
      | inr toolResponseParts' =>
          let '(r', w2, out') := run_tools rest toolResponseParts' w1 in
          (r', w2, out ++ out')
      end
  end.

(** One pass through the body of [while (true)], after the turn-limit check. *)
Definition turn (fuel : nat) (currentMessages : list Content) (w : World)
    : TurnResult * World * list Effect :=
  let sent := first_parts currentMessages in
  let w1 := openStream env sent prompt_id w in
  let '(d, w2, out) := drain fuel [] w1 in
  let out := SendMessageStream sent prompt_id :: out in
  match d with
  | DrainPending => (TurnPending, w2, out)
  | DrainCancelled => (TurnReturn AtCancel, w2, out)
  | DrainRejected e => (TurnRejected e, w2, out)
  | StreamDone [] => (TurnReturn AtNoToolCalls, w2, out ++ [StdoutWrite FinalNewline])
  | StreamDone (fc :: rest) =>
      let '(r, w3, out') := run_tools (fc :: rest) [] w2 in
      match r with
      | inl e => (TurnRejected e, w3, out ++ out')
      | inr toolResponseParts => (TurnContinue [user_message toolResponseParts], w3, out ++ out')
      end
  end.

(** [while (true)] *)
Fixpoint session_loop (fuel : nat) (currentMessages : list Content) (turnCount : Z)
    (w : World) : LoopResult * World * list Effect :=
  match fuel with
  | O => (Pending, w, [])
  | S fuel' =>
      let turnCount := turnCount + 1 in
      if (0 <=? maxSessionTurns config) && (maxSessionTurns config <? turnCount) then
        (Returned AtMaxTurns, w, [ConsoleError MaxTurnsNotice])
      else
        let '(r, w1, out) := turn fuel' currentMessages w in
        let out := BeginTurn turnCount currentMessages :: out in
        match r with
        | TurnPending => (Pending, w1, out)
        | TurnReturn site => (Returned site, w1, out)
        | TurnRejected e => (Rejected e, w1, out)
        | TurnContinue next =>
            let '(r', w2, out') := session_loop fuel' next turnCount w1 in
            (r', w2, out ++ out')
        end
  end.

(** The [finally] block. *)
Definition finalizer (w : World) : list Effect :=
  CleanupConsole :: (if isTelemetrySdkInitialized env w then [ShutdownTelemetry] else []).

(** The whole function: the loop inside [try], then [finally] after a
    [return], or the [catch] block, which ends the process.  The listener
    the function puts on the output stream, which ends the process with
    status 0 when the pipe is closed, acts from outside this flow of control
    and is not modelled. *)
Definition runNonInteractive (fuel : nat) (input : string) (w : World)
    : RunResult * World * list Effect :=
  let currentMessages := [ {| role := "user"; parts := Some [text_part input] |} ] in
  let '(r, w1, out) := session_loop fuel currentMessages 0 w in
  let out := PatchConsole (debugMode config) :: out in
  match r with
  | Pending => (Unfinished, w1, out)
  | Returned site => (Resolved site, w1, out ++ finalizer w1)
  | Rejected e =>
      (Exited 1, w1,
       out ++ [ConsoleError (ApiErrorNotice (parseAndFormatApiError env e (authType config)));
               ProcessExit 1])
  end.

End Driver.

(* ================================================================== *)
(** ** A scripted world                                                *)
(* ================================================================== *)

(** A concrete world for running the driver: the streams the agent client
    will produce (one per call, each item with the state of the abort flag
    when it arrives), the answers of the tool executor, and a clock that
    advances by one at every reading. *)
Record Script : Type := mkScript {
  streams : list (list (GeminiEvent * bool));
  current : list (GeminiEvent * bool);
  flag : bool;
  tools : list ToolOutcome;
  clock : Z;
  telemetry : bool
}.

Definition script_env : Env Script :=
  {| openStream := fun _ _ w =>
       match streams w with
       | [] => mkScript [] [] (flag w) (tools w) (clock w) (telemetry w)
       | s :: rest => mkScript rest s (flag w) (tools w) (clock w) (telemetry w)
       end;
     nextEvent := fun w =>
       match current w with
       | [] => (Done, w)
       | (ev, ab) :: rest =>
           (Yield ev, mkScript (streams w) rest ab (tools w) (clock w) (telemetry w))
       end;
     aborted := flag;
     now := fun w =>
       (clock w, mkScript (streams w) (current w) (flag w) (tools w) (clock w + 1) (telemetry w));
     toISOString := fun t => ("T" ++ decimal t)%string;
     executeToolCall := fun _ w =>
       match tools w with
       | [] => (ToolResolved (mkToolCallResponse None None None), w)
       | o :: rest =>
           (o, mkScript (streams w) (current w) (flag w) rest (clock w) (telemetry w))
       end;
     isTelemetrySdkInitialized := telemetry;
     parseAndFormatApiError := fun e _ => ("[API Error: " ++ e ++ "]")%string |}.

Definition demo_config (L : Z) : Config := mkConfig false L None.

(** A search without identifier, and a lookup with the identifier call-7. *)
Definition search_request : ToolCallRequest :=
  mkToolCallRequest "search" (Some (JObj [("q", JStr "x")])) None false "p1".

Definition lookup_request : ToolCallRequest :=
  mkToolCallRequest "lookup" None (Some "call-7") false "p1".

(** A tool that fails with the message boom, and one that succeeds with an
    empty display string. *)
Definition boom_response : ToolCallResponse :=
  mkToolCallResponse None (Some (mkError "boom")) None.


(** Two turns: a text and a search that fails, then a closing text. *)
Definition demo_world : Script :=
  mkScript [ [(ContentEvent "hi", false); (ToolCallRequestEvent search_request, false)];
             [(ContentEvent "done", false)] ]
           [] false [ToolResolved boom_response] 1700000000000 false.




(** A lookup answered by a string, a null and a payload. *)
Definition lookup_world : Script :=
  mkScript [ [(ToolCallRequestEvent lookup_request, false)] ] [] false
           [ToolResolved (mkToolCallResponse (Some "found") None
                            (Some (many [PU_string "a"; PU_falsy;
                                         PU_part (payload_part (JObj []))])))]
           0 false.

(** A lookup answered by the empty string as its only part. *)
Definition empty_reply_world : Script :=
  mkScript [ [(ToolCallRequestEvent lookup_request, false)] ] [] false
           [ToolResolved (mkToolCallResponse None None (Some (single (PU_string ""))))]
           0 false.

(** Three fragments; the abort flag is set when the second arrives. *)
Definition cancelled_world : Script :=
  mkScript [ [(ContentEvent "a", false); (ContentEvent "b", true);
              (ContentEvent "c", false)] ]
           [] false [] 0 false.

(** A greeting in two fragments, and a paragraph that ends with a line feed. *)
Definition greeting_world : Script :=
  mkScript [ [(ContentEvent "Hello", false); (ContentEvent " there", false)] ]
           [] false [] 0 false.


(* ================================================================== *)
(** ** Reading a trace                                                 *)
(* ================================================================== *)

Definition result_of {R W : Type} (x : R * W * list Effect) : R := fst (fst x).
Definition world_of {R W : Type} (x : R * W * list Effect) : W := snd (fst x).
Definition trace_of {R W : Type} (x : R * W * list Effect) : list Effect := snd x.

Arguments result_of {R W} x /.
Arguments world_of {R W} x /.
Arguments trace_of {R W} x /.

(** The parts passed to the agent client, one entry per call. *)
Definition sends (tr : list Effect) : list (list Part) :=
  flat_map (fun e => match e with SendMessageStream ps _ => [ps] | _ => [] end) tr.

(** The number of turns performed: calls of [sendMessageStream]. *)
Definition turns (tr : list Effect) : nat := List.length (sends tr).

Definition batches (tr : list Effect) : list (list Content) :=
  flat_map (fun e => match e with BeginTurn _ msgs => [msgs] | _ => [] end) tr.

Definition stdout_writes (tr : list Effect) : list Output :=
  flat_map (fun e => match e with StdoutWrite o => [o] | _ => [] end) tr.

Definition join (l : list string) : string := fold_right String.append "" l.

Definition stdout_text (tr : list Effect) : string :=
  join (map output_text (stdout_writes tr)).

Definition diagnostics (tr : list Effect) : list Diagnostic :=
  flat_map (fun e => match e with ConsoleError d => [d] | _ => [] end) tr.

Definition executions (tr : list Effect) : list (ToolCallRequestInfo * ToolOutcome) :=
  flat_map (fun e => match e with ExecuteToolCall r o => [(r, o)] | _ => [] end) tr.

Definition events_received (tr : list Effect) : list GeminiEvent :=
  flat_map (fun e => match e with NextEvent (Yield ev) => [ev] | _ => [] end) tr.

Definition requests (events : list GeminiEvent) : list ToolCallRequest :=
  flat_map (fun ev => match ev with ToolCallRequestEvent r => [r] | _ => [] end) events.


(** The responses of the tool executor, in the order of the calls. *)
Definition responses (tr : list Effect) : list ToolCallResponse :=
  flat_map (fun e => match e with
                     | ExecuteToolCall _ (ToolResolved response) => [response]
                     | _ => []
                     end) tr.

(** The JSONL records written, in order. *)
Definition records (tr : list Effect) : list Json.t :=
  flat_map (fun e => match e with StdoutWrite (JsonLine r) => [r] | _ => [] end) tr.

Definition has_type (ty : string) (record : Json.t) : bool :=
  match Json.get "type" record with
  | Some (JStr ty') => String.eqb ty ty'
  | _ => false
  end.

Definition records_of (ty : string) (tr : list Effect) : list Json.t :=
  filter (has_type ty) (records tr).

(** [record.data.k]; [None] stands for [undefined]. *)
Definition data_field (k : string) (record : Json.t) : option Json.t :=
  match Json.get "data" record with
  | Some data => Json.get k data
  | None => None
  end.

Definition call_id_of (record : Json.t) : option Json.t := data_field "call_id" record.

(** The calls of the executor and the records written, interleaved as they
    happened. *)
Definition tool_steps (tr : list Effect) : list (ToolCallRequestInfo + Json.t) :=
  flat_map (fun e => match e with
                     | ExecuteToolCall r _ => [inl r]
                     | StdoutWrite (JsonLine record) => [inr record]
                     | _ => []
                     end) tr.


(** The normalisation of response parts as the specification words it: the
    single part or the sequence, flattened; a string wrapped as a text part,
    another truthy entry unchanged, a falsy entry skipped. *)
Definition spec_entries (rp : option PartListUnion) : list PartUnion :=
  match rp with
  | None => []
  | Some (single part) => [part]
  | Some (many entries) => entries
  end.

Definition spec_normalize_entry (part : PartUnion) : list Part :=
  match part with
  | PU_string s => [text_part s]
  | PU_part p => [p]
  | PU_falsy => []
  end.

Definition spec_normalize (rp : option PartListUnion) : list Part :=
  flat_map spec_normalize_entry (spec_entries rp).

(** The effects the [for await] loop can have. *)
Definition stream_effect (jsonl : bool) (e : Effect) : Prop :=
  match e with
  | NextEvent _ => True
  | StdoutWrite (RawText _) => jsonl = false
  | StdoutWrite (JsonLine _) => jsonl = true
  | ConsoleError CancelNotice => True
  | _ => False
  end.

(** The effects the tool loop can have. *)
Definition tool_effect (jsonl : bool) (e : Effect) : Prop :=
  match e with
  | ExecuteToolCall _ _ => True
  | StdoutWrite (JsonLine _) => jsonl = true
  | ConsoleError (ToolErrorNotice _ _) => True
  | _ => False
  end.

(** The effects of a turn after its call of the agent client. *)
Definition turn_effect (jsonl : bool) (e : Effect) : Prop :=
  match e with
  | NextEvent _ | ExecuteToolCall _ _ => True
  | StdoutWrite (RawText _) => jsonl = false
  | StdoutWrite (JsonLine _) => jsonl = true
  | StdoutWrite FinalNewline => True
  | ConsoleError CancelNotice | ConsoleError (ToolErrorNotice _ _) => True
  | _ => False
  end.

(** What the result record and the diagnostic of a resolved call are. *)
Definition result_writes {World : Type} (env : Env World) (jsonlOutput : bool)
    (cid : string) (fc : FunctionCall) (resp : ToolCallResponse)
    (w2 : World) : list Effect :=
  if jsonlOutput
  then [StdoutWrite (JsonLine
          (tool_result_record cid fc resp (toISOString env (fst (now env w2)))))]
  else [].

Definition error_writes (fc : FunctionCall) (resp : ToolCallResponse) : list Effect :=
  match error resp with
  | Some err =>
      [ConsoleError (ToolErrorNotice (fc_name fc)
         (or_else (resultDisplay resp) (message err)))]
  | None => []
  end.

(** The call [x] of the executor was made for the function call [fc]: name,
    arguments (an empty object when missing), not client-initiated, the
    prompt identifier of the session. *)
Definition made_for (prompt_id : string) (fc : FunctionCall)
    (x : ToolCallRequestInfo * ToolOutcome) : Prop :=
  fst x = request_info prompt_id (callId (fst x)) fc.

(** The steps of a tool loop that ran every call: in the order of the
    function calls, the executor is called for one, then (in JSONL mode) its
    tool_result record is written, then the next is started. *)
Inductive sequential (prompt_id : string) (jsonl : bool)
  : list FunctionCall -> list (ToolCallRequestInfo + Json.t) -> Prop :=
| sequential_nil : sequential prompt_id jsonl [] []
| sequential_record fc rest req record steps :
    jsonl = true ->
    req = request_info prompt_id (callId req) fc ->
    has_type "tool_result" record = true ->
    call_id_of record = Some (JStr (callId req)) ->
    sequential prompt_id jsonl rest steps ->
    sequential prompt_id jsonl (fc :: rest) (inl req :: inr record :: steps)
| sequential_plain fc rest req steps :
    jsonl = false ->
    req = request_info prompt_id (callId req) fc ->
    sequential prompt_id jsonl rest steps ->
    sequential prompt_id jsonl (fc :: rest) (inl req :: steps).

(** A batch of exactly one message, of role user. *)
Definition one_user_message (batch : list Content) : Prop :=
  exists ps, batch = [user_message ps].

(** Either the cancellation notice is not in the trace, or it is its last
    effect and [cancelled] holds. *)
Definition cancel_last (tr : list Effect) (cancelled : Prop) : Prop :=
  (~ In (ConsoleError CancelNotice) tr /\ ~ cancelled) \/
  (exists pre, tr = pre ++ [ConsoleError CancelNotice] /\
               ~ In (ConsoleError CancelNotice) pre /\ cancelled).


(* ================================================================== *)
(** ** Further readings of a trace                                     *)
(* ================================================================== *)

(** The turn counters with which the turns started. *)
Definition turn_numbers (tr : list Effect) : list Z :=
  flat_map (fun e => match e with BeginTurn n _ => [n] | _ => [] end) tr.

(** The effects of the session loop: those of its turns, the start of a
    turn, the call of the agent client and the limit notice. *)
Definition session_effect (jsonl : bool) (e : Effect) : Prop :=
  match e with
  | BeginTurn _ _ | SendMessageStream _ _ => True
  | ConsoleError MaxTurnsNotice => True
  | _ => turn_effect jsonl e
  end.

(** The write [o] belongs to the output mode. *)
Definition write_of_mode (jsonl : bool) (o : Output) : Prop :=
  match o with
  | RawText _ => jsonl = false
  | JsonLine _ => jsonl = true
  | FinalNewline => True
  end.

(** The effect [x] is the throw of [e]: by the response stream or by the
    tool executor. *)
Definition thrown (e : Exn) (x : Effect) : Prop :=
  x = NextEvent (StreamRejected e) \/ exists r, x = ExecuteToolCall r (ToolRejected e).

(** The diagnostic a call of the executor leads to. *)
Definition tool_diagnostic (x : ToolCallRequestInfo * ToolOutcome) : list Diagnostic :=
  match snd x with
  | ToolResolved resp =>
      match error resp with
      | Some err =>
          [ToolErrorNotice (name (fst x)) (or_else (resultDisplay resp) (message err))]
      | None => []
      end
  | ToolRejected _ => []
  end.

(** The number of line feeds of a text. *)
Fixpoint count_newlines (s : string) : nat :=
  match s with
  | EmptyString => O
  | String c rest =>
      if Ascii.eqb c "010" then S (count_newlines rest) else count_newlines rest
  end.

(** A world of two states in which every call of the agent client is
    answered by one search request; the executor fails with the message boom
    and the abort flag is never set. *)
Definition busy_env : Env bool :=
  {| openStream := fun _ _ _ => true;
     nextEvent := fun w =>
       if w then (Yield (ToolCallRequestEvent search_request), false) else (Done, false);
     aborted := fun _ => false;
     now := fun w => (0, w);
     toISOString := fun t => ("T" ++ decimal t)%string;
     executeToolCall := fun _ w => (ToolResolved boom_response, w);
     isTelemetrySdkInitialized := fun _ => true;
     parseAndFormatApiError := fun e _ => ("[API Error: " ++ e ++ "]")%string |}.

(** A world whose response stream breaks after one fragment. *)
Definition broken_stream_env : Env bool :=
  {| openStream := fun _ _ _ => true;
     nextEvent := fun w =>
       if w then (Yield (ContentEvent "par"), false)
       else (StreamRejected "socket hang up", false);
     aborted := fun _ => false;
     now := fun w => (0, w);
     toISOString := fun t => ("T" ++ decimal t)%string;
     executeToolCall := fun _ w => (ToolResolved boom_response, w);
     isTelemetrySdkInitialized := fun _ => true;
     parseAndFormatApiError := fun e _ => ("[API Error: " ++ e ++ "]")%string |}.

(** A lookup answered by a sequence whose only entry is the empty string. *)
Definition empty_entry_world : Script :=
  mkScript [ [(ToolCallRequestEvent lookup_request, false)] ] [] false
           [ToolResolved (mkToolCallResponse None None (Some (many [PU_string ""])))]
           0 false.

(** The batches a trace accounts for.  [current] is the batch in the making:
    the start of a turn takes it and leaves an empty user message, to which
    every response of the executor adds the parts the driver keeps of it. *)
Fixpoint expected_batches (current : list Content) (tr : list Effect)
    : list (list Content) :=
  match tr with
  | [] => []
  | BeginTurn _ _ :: rest => current :: expected_batches [user_message []] rest
  | ExecuteToolCall _ (ToolResolved response) :: rest =>
      expected_batches
        [user_message (push_response_parts (first_parts current) (responseParts response))]
        rest
  | _ :: rest => expected_batches current rest
  end.

(** *** A client that is listened to

    To say what the agent client receives, and not only what the trace says
    of it, the collaborators are run on a world that also holds the list of
    the calls of [sendMessageStream] received so far, each with its parts
    and its prompt identifier.  Only [openStream] adds to the list; the other
    collaborators act on the world as before. *)
Definition Received : Type := list (list Part * string).

Definition spy {World : Type} (env : Env World) : Env (World * Received) :=
  {| openStream := fun ps pid s =>
       (openStream env ps pid (fst s), snd s ++ [(ps, pid)]);
     nextEvent := fun s =>
       (fst (nextEvent env (fst s)), (snd (nextEvent env (fst s)), snd s));
     aborted := fun s => aborted env (fst s);
     now := fun s => (fst (now env (fst s)), (snd (now env (fst s)), snd s));
     toISOString := toISOString env;
     executeToolCall := fun r s =>
       (fst (executeToolCall env r (fst s)), (snd (executeToolCall env r (fst s)), snd s));
     isTelemetrySdkInitialized := fun s => isTelemetrySdkInitialized env (fst s);
     parseAndFormatApiError := parseAndFormatApiError env |}.

(** The outcome [x] of a computation, with [received] put beside its world. *)
Definition spied {R World : Type} (received : Received) (x : R * World * list Effect)
    : R * (World * Received) * list Effect :=
  (result_of x, (world_of x, received), trace_of x).

(** One turn with a search and a lookup; the executor throws on the first
    call and would answer the second. *)
Definition throwing_world : Script :=
  mkScript [ [(ToolCallRequestEvent search_request, false);
              (ToolCallRequestEvent lookup_request, false)] ]
           [] false
           [ToolRejected "tool crashed";
            ToolResolved (mkToolCallResponse (Some "found") None None)]
           0 false.

(** One turn with a search; the abort flag is set when the event after it
    arrives. *)
Definition interrupted_world : Script :=
  mkScript [ [(ToolCallRequestEvent search_request, false); (ContentEvent "x", true)] ]
           [] false [ToolResolved boom_response] 0 false.

(** The effects of a turn once its stream has ended: those of the tool
    loop, or the final line feed. *)
Definition after_stream_effect (jsonl : bool) (e : Effect) : Prop :=
  tool_effect jsonl e \/ e = StdoutWrite FinalNewline.

(* ================================================================== *)
(** ** Lemmas on the pieces of the driver                              *)
(* ================================================================== *)

Lemma flat_map_nil_on {A B : Type} (P : A -> Prop) (f : A -> list B) (l : list A) :
  Forall P l -> (forall a, P a -> f a = []) -> flat_map f l = [].
Proof.
  induction 1 as [|a l Ha _ IH]; intros Hf; simpl.
  - reflexivity.
  - rewrite (Hf a Ha), IH by assumption. reflexivity.
Qed.

Lemma stream_effect_turn jsonl e : stream_effect jsonl e -> turn_effect jsonl e.
Proof. destruct e as [| | | |[]|[]| | | |]; simpl; tauto. Qed.

Lemma tool_effect_turn jsonl e : tool_effect jsonl e -> turn_effect jsonl e.
Proof. destruct e as [| | | |[]|[]| | | |]; simpl; tauto. Qed.

Section DriverFacts.

Context {World : Type}.
Variable env : Env World.
Variable config : Config.
Variable prompt_id : string.
Variable jsonlOutput : bool.

Local Abbreviation on_event' := (on_event env jsonlOutput).
Local Abbreviation drain' := (drain env jsonlOutput).
Local Abbreviation run_tool' := (run_tool env prompt_id jsonlOutput).
Local Abbreviation run_tools' := (run_tools env prompt_id jsonlOutput).
Local Abbreviation turn' := (turn env prompt_id jsonlOutput).
Local Abbreviation session_loop' := (session_loop env config prompt_id jsonlOutput).
Local Abbreviation runNonInteractive' := (runNonInteractive env config prompt_id jsonlOutput).

Lemma on_event_effects event fcs w :
  Forall (stream_effect jsonlOutput) (trace_of (on_event' event fcs w)).
Proof.
  unfold on_event, timestamp.
  destruct event as [value|req|kind]; destruct jsonlOutput eqn:J;
    try destruct (now env w); simpl; repeat constructor.
Qed.

Lemma drain_effects fuel : forall fcs w,
  Forall (stream_effect jsonlOutput) (trace_of (drain' fuel fcs w)).
Proof.
  induction fuel as [|fuel IH]; intros fcs w; simpl.
  - constructor.
  - destruct (nextEvent env w) as [step w1].
    destruct step as [event| |e]; simpl.
    + destruct (aborted env w1); simpl.
      * repeat constructor.
      * pose proof (on_event_effects event fcs w1) as H1.
        destruct (on_event' event fcs w1) as [[fcs' w2] out].
        pose proof (IH fcs' w2) as H2.
        destruct (drain' fuel fcs' w2) as [[r w3] out']. simpl in *.
        constructor; [exact I|]. apply Forall_app; split; assumption.
    + repeat constructor.
    + repeat constructor.
Qed.

Lemma run_tool_effects fc acc w :
  Forall (tool_effect jsonlOutput) (trace_of (run_tool' fc acc w)).
Proof.
  unfold run_tool, timestamp.
  destruct (resolve_callId env fc w) as [cid w1].
  destruct (executeToolCall env _ w1) as [[resp|e] w2]; simpl.
  - destruct jsonlOutput eqn:J; try destruct (now env w2);
      destruct (error resp); simpl; repeat constructor.
  - repeat constructor.
Qed.

Lemma run_tools_effects fcs : forall acc w,
  Forall (tool_effect jsonlOutput) (trace_of (run_tools' fcs acc w)).
Proof.
  induction fcs as [|fc rest IH]; intros acc w; simpl.
  - constructor.
  - pose proof (run_tool_effects fc acc w) as H1.
    destruct (run_tool' fc acc w) as [[[e|acc'] w1] out]; simpl in *.
    + assumption.
    + pose proof (IH acc' w1) as H2.
      destruct (run_tools' rest acc' w1) as [[r' w2] out']; simpl in *.
      apply Forall_app; split; assumption.
Qed.

(** The trace of a turn: the call of the agent client first, then what the
    stream and the tools do. *)
Lemma turn_shape fuel msgs w :
  exists body,
    trace_of (turn' fuel msgs w) = SendMessageStream (first_parts msgs) prompt_id :: body /\
    Forall (turn_effect jsonlOutput) body.
Proof.
  unfold turn.
  pose proof (drain_effects fuel [] (openStream env (first_parts msgs) prompt_id w)) as Hd.
  destruct (drain' fuel [] _) as [[d w2] out]. simpl in Hd.
  assert (Hd' : Forall (turn_effect jsonlOutput) out)
    by (eapply Forall_impl; [apply stream_effect_turn | exact Hd]).
  destruct d as [[|fc rest]| | |]; cbv beta iota.
  - simpl. eexists; split; [reflexivity|].
    apply Forall_app; split; [assumption | repeat constructor].
  - pose proof (run_tools_effects (fc :: rest) [] w2) as Ht.
    destruct (run_tools' (fc :: rest) [] w2) as [[r w3] out']. simpl in Ht.
    assert (Ht' : Forall (turn_effect jsonlOutput) out')
      by (eapply Forall_impl; [apply tool_effect_turn | exact Ht]).
    destruct r; simpl; eexists; (split; [reflexivity|]);
      apply Forall_app; split; assumption.
  - simpl. eexists; split; [reflexivity | assumption].
  - simpl. eexists; split; [reflexivity | assumption].
  - simpl. eexists; split; [reflexivity | assumption].
Qed.

Lemma turn_body_sends body :
  Forall (turn_effect jsonlOutput) body -> sends body = [].
Proof.
  intros H. apply (flat_map_nil_on _ _ _ H).
  intros [| | | |[]|[]| | | |]; simpl; tauto.
Qed.

Lemma turn_body_batches body :
  Forall (turn_effect jsonlOutput) body -> batches body = [].
Proof.
  intros H. apply (flat_map_nil_on _ _ _ H).
  intros [| | | |[]|[]| | | |]; simpl; tauto.
Qed.








End DriverFacts.

(* ================================================================== *)
(** ** The turn limit                                                  *)
(* ================================================================== *)

Lemma finalizer_quiet {World : Type} (env : Env World) (w : World) :
  sends (finalizer env w) = [] /\
  ~ In (ConsoleError MaxTurnsNotice) (finalizer env w).
Proof.
  unfold finalizer. destruct (isTelemetrySdkInitialized env w); simpl; split;
    try reflexivity; intuition discriminate.
Qed.



(* ================================================================== *)
(** ** Facts on the JSON text                                          *)
(* ================================================================== *)

Module JsonFacts.

Local Open Scope string_scope.

Lemma append_assoc (a b c : string) : (a ++ b) ++ c = a ++ (b ++ c).
Proof. induction a as [|x a IH]; simpl; [reflexivity | rewrite IH; reflexivity]. Qed.

Lemma append_nil_r (a : string) : a ++ "" = a.
Proof. induction a as [|x a IH]; simpl; [reflexivity | rewrite IH; reflexivity]. Qed.

Lemma has_newline_app (a b : string) :
  has_newline (a ++ b) = (has_newline a || has_newline b)%bool.
Proof.
  induction a as [|x a IH]; simpl; [reflexivity|].
  rewrite IH. apply orb_assoc.
Qed.

(** Reading back the characters [QuoteJSONString] wrote. *)
Lemma read_chars_quote (s rest : string) :
  read_chars (quote_chars s ++ String "034" rest) = Some (s, rest).
Proof.
  induction s as [|c s IH]; [reflexivity|].
  cbn [quote_chars]. rewrite append_assoc.
  destruct c as [[] [] [] [] [] [] [] []];
    cbn; rewrite IH; reflexivity.
Qed.

Lemma quote_chars_one_line (s : string) : has_newline (quote_chars s) = false.
Proof.
  induction s as [|c s IH]; [reflexivity|].
  cbn [quote_chars]. rewrite has_newline_app, IH, orb_false_r.
  destruct c as [[] [] [] [] [] [] [] []]; reflexivity.
Qed.

Lemma quote_one_line (s : string) : has_newline (QuoteJSONString s) = false.
Proof.
  unfold QuoteJSONString. cbn [has_newline]. 
  rewrite has_newline_app, quote_chars_one_line. reflexivity.
Qed.

Lemma uint_one_line (d : Decimal.uint) :
  has_newline (NilEmpty.string_of_uint d) = false.
Proof. induction d; simpl; assumption || reflexivity. Qed.

Lemma decimal_one_line (n : Z) : has_newline (decimal n) = false.
Proof.
  unfold decimal, NilZero.string_of_int, NilZero.string_of_uint.
  destruct (Z.to_int n) as [d|d]; destruct d; simpl;
    try reflexivity; apply uint_one_line.
Qed.

(** [JSON.stringify] never writes a line feed: a record is one line. *)
Lemma stringify_one_line (v : Json.t) : has_newline (stringify v) = false.
Proof.
  induction v using json_rect'.
  - reflexivity.
  - destruct b; reflexivity.
  - apply decimal_one_line.
  - apply quote_one_line.
  - cbn [stringify]. rewrite !has_newline_app. cbn [has_newline orb Ascii.eqb Bool.eqb].
    rewrite orb_false_r.
    induction H as [|x rest Hx _ IH]; [reflexivity|].
    rewrite has_newline_app, Hx. destruct rest as [|y rest]; [reflexivity|].
    cbn [orb]. rewrite has_newline_app. exact IH.
  - cbn [stringify]. rewrite !has_newline_app. cbn [has_newline orb Ascii.eqb Bool.eqb].
    rewrite orb_false_r.
    induction H as [|[k x] rest Hx _ IH]; [reflexivity|].
    rewrite !has_newline_app, quote_one_line. simpl in Hx. rewrite Hx.
    destruct rest as [|[k' x'] rest]; [reflexivity|].
    cbn [orb has_newline append Ascii.eqb Bool.eqb] in IH |- *. exact IH.
Qed.

End JsonFacts.

Module TokenLine.
Import JsonFacts.
Local Open Scope string_scope.

Lemma read_token_line (k : nat) (value ts rest : string) :
  read_value (5 + k) (stringify (token_record value ts) ++ rest)
  = Some (token_record value ts, rest).
Proof.
  unfold token_record. cbn [js_object stringify]. unfold QuoteJSONString.
  cbn [plus]. 
  simpl. rewrite !append_assoc. simpl. rewrite read_chars_quote. simpl.
  rewrite !append_assoc. simpl. rewrite read_chars_quote. simpl.
  reflexivity.
Qed.
Lemma parse_token_line (value ts : string) :
  Json.parse (stringify (token_record value ts)) = Some (token_record value ts) /\
  Json.parse (stringify (token_record value ts) ++ newline) = Some (token_record value ts).
Proof.
  assert (Hfuel : forall text, (2 <= String.length text)%nat ->
            exists k, (2 * String.length text + 2 = 5 + k)%nat).
  { intros text H. exists (2 * String.length text - 3)%nat. lia. }
  split; unfold Json.parse.
  - destruct (Hfuel (stringify (token_record value ts))) as [k Hk].
    { simpl. lia. }
    rewrite Hk. rewrite <- (append_nil_r (stringify (token_record value ts))) at 1.
    rewrite read_token_line. reflexivity.
  - destruct (Hfuel (stringify (token_record value ts) ++ newline)) as [k Hk].
    { simpl. lia. }
    rewrite Hk, read_token_line. reflexivity.
Qed.

End TokenLine.

(* ================================================================== *)
(** ** The token record                                                *)
(* ================================================================== *)

(** C9.  In JSONL mode a content event with text [value] makes the driver
    write exactly one record; its text is one line (the only line feed is the
    one that ends it), and the line parses as the JSON object with type
    token and data [value]. *)
Theorem token_line_roundtrip :
  forall (World : Type) (env : Env World) (value : string)
         (functionCalls : list FunctionCall) (w : World),
    let ts := toISOString env (fst (now env w)) in
    let record := token_record value ts in
    let line := Json.stringify record in
    on_event env true (ContentEvent value) functionCalls w
      = (functionCalls, snd (now env w), [StdoutWrite (JsonLine record)]) /\
    output_text (JsonLine record) = (line ++ newline)%string /\
    has_newline line = false /\
    Json.parse line = Some record /\
    Json.parse (line ++ newline)%string = Some record /\
    Json.get "type" record = Some (JStr "token") /\
    Json.get "data" record = Some (JStr value).
Proof.
  intros World env value functionCalls w ts record line.
  split.
  { unfold on_event, timestamp. subst record ts.
    destruct (now env w) as [t w']. reflexivity. }
  split; [reflexivity|].
  split; [apply JsonFacts.stringify_one_line|].
  destruct (TokenLine.parse_token_line value ts) as [H1 H2].
  repeat split; assumption || reflexivity.
Qed.

(** The text abc on the scripted session. *)
Example token_line_abc :
  let w := mkScript [] [(ContentEvent "abc", false)] false [] 1700000000000 false in
  exists line,
    stdout_text (trace_of (drain script_env true 1 [] w)) = (line ++ newline)%string /\
    has_newline line = false /\
    option_map (Json.get "type") (Json.parse line) = Some (Some (JStr "token")) /\
    option_map (Json.get "data") (Json.parse line) = Some (Some (JStr "abc")).
Proof.
  exists (Json.stringify (token_record "abc" "T1700000000000")).
  repeat split; vm_compute; reflexivity.
Qed.

(* ================================================================== *)
(** ** The batch sent to the agent client                              *)
(* ================================================================== *)

Section TurnFacts.

Context {World : Type}.
Variable env : Env World.
Variable config : Config.
Variable prompt_id : string.
Variable jsonlOutput : bool.

Lemma turn_first_message fuel m rest w :
  turn env prompt_id jsonlOutput fuel (m :: rest) w
  = turn env prompt_id jsonlOutput fuel [m] w.
Proof. reflexivity. Qed.

Lemma turn_sends fuel msgs w :
  sends (trace_of (turn env prompt_id jsonlOutput fuel msgs w)) = [first_parts msgs].
Proof.
  destruct (turn_shape env prompt_id jsonlOutput fuel msgs w) as (body & Hb & Hf).
  rewrite Hb. unfold sends. simpl. fold (sends body).
  rewrite (turn_body_sends jsonlOutput body Hf). reflexivity.
Qed.

(** Every call of the agent client carries the first parts of the batch the
    turn started with. *)
Lemma session_loop_sends fuel : forall msgs n w,
  sends (trace_of (session_loop env config prompt_id jsonlOutput fuel msgs n w))
  = map first_parts
      (batches (trace_of (session_loop env config prompt_id jsonlOutput fuel msgs n w))).
Proof.
  induction fuel as [|fuel IH]; intros msgs n w; simpl; [reflexivity|].
  destruct ((0 <=? maxSessionTurns config) && (maxSessionTurns config <? n + 1));
    [reflexivity|].
  destruct (turn_shape env prompt_id jsonlOutput fuel msgs w) as (body & Hb & Hf).
  pose proof (turn_body_sends jsonlOutput body Hf) as Hs.
  pose proof (turn_body_batches jsonlOutput body Hf) as Hbt.
  destruct (turn env prompt_id jsonlOutput fuel msgs w) as [[r w1] out].
  simpl in Hb. subst out. unfold sends, batches in *.
  destruct r as [next|site|e|]; simpl; rewrite ?flat_map_app, ?Hs, ?Hbt;
    try reflexivity.
  specialize (IH next (n + 1) w1).
  destruct (session_loop env config prompt_id jsonlOutput fuel next (n + 1) w1)
    as [[r' w2] out']. simpl in *.
  rewrite !flat_map_app, Hs, Hbt. simpl. rewrite IH. reflexivity.
Qed.

End TurnFacts.

(** The driver run with a client that is listened to does what it does
    without, and the client receives one call per turn. *)
Section SpyFacts.

Context {World : Type}.
Variable env : Env World.
Variable config : Config.
Variable prompt_id : string.
Variable jsonlOutput : bool.

Lemma spy_timestamp w log :
  timestamp (spy env) (w, log) = (fst (timestamp env w), (snd (timestamp env w), log)).
Proof. unfold timestamp. simpl. destruct (now env w). reflexivity. Qed.

Lemma spy_on_event event fcs w log :
  on_event (spy env) jsonlOutput event fcs (w, log)
  = spied log (on_event env jsonlOutput event fcs w).
Proof.
  unfold on_event, spied.
  destruct event; destruct jsonlOutput; rewrite ?spy_timestamp;
    try destruct (timestamp env w); reflexivity.
Qed.

Lemma spy_drain fuel : forall fcs w log,
  drain (spy env) jsonlOutput fuel fcs (w, log)
  = spied log (drain env jsonlOutput fuel fcs w).
Proof.
  induction fuel as [|fuel IH]; intros fcs w log; [reflexivity|].
  cbn [drain]. cbn [nextEvent spy fst snd aborted].
  destruct (nextEvent env w) as [step w1]. cbn [fst snd].
  destruct step as [event| |e]; try reflexivity.
  destruct (aborted env w1); [reflexivity|].
  rewrite spy_on_event.
  destruct (on_event env jsonlOutput event fcs w1) as [[fcs' w2] out].
  unfold spied at 1. cbn [result_of world_of trace_of fst snd].
  rewrite IH.
  destruct (drain env jsonlOutput fuel fcs' w2) as [[r w3] out'].
  reflexivity.
Qed.

Lemma spy_resolve_callId fc w log :
  resolve_callId (spy env) fc (w, log)
  = (fst (resolve_callId env fc w), (snd (resolve_callId env fc w), log)).
Proof.
  unfold resolve_callId. destruct (fc_id fc); [reflexivity|].
  cbn [now spy fst snd]. destruct (now env w). reflexivity.
Qed.

Lemma spy_run_tool fc acc w log :
  run_tool (spy env) prompt_id jsonlOutput fc acc (w, log)
  = spied log (run_tool env prompt_id jsonlOutput fc acc w).
Proof.
  unfold run_tool. rewrite spy_resolve_callId.
  destruct (resolve_callId env fc w) as [cid w1]. cbn [fst snd executeToolCall spy].
  destruct (executeToolCall env (request_info prompt_id cid fc) w1) as [outcome w2].
  cbn [fst snd]. destruct outcome as [resp|e]; [|reflexivity].
  destruct jsonlOutput; rewrite ?spy_timestamp;
    try destruct (timestamp env w2); reflexivity.
Qed.

Lemma spy_run_tools fcs : forall acc w log,
  run_tools (spy env) prompt_id jsonlOutput fcs acc (w, log)
  = spied log (run_tools env prompt_id jsonlOutput fcs acc w).
Proof.
  induction fcs as [|fc rest IH]; intros acc w log; [reflexivity|].
  cbn [run_tools]. rewrite spy_run_tool.
  destruct (run_tool env prompt_id jsonlOutput fc acc w) as [[r w1] out].
  unfold spied at 1. cbn [result_of world_of trace_of fst snd].
  destruct r as [e|acc']; [reflexivity|].
  rewrite IH.
  destruct (run_tools env prompt_id jsonlOutput rest acc' w1) as [[r' w2] out'].
  reflexivity.
Qed.

(** A turn makes one call of the client, with the first parts of its batch
    and the prompt identifier. *)
Lemma spy_turn fuel msgs w log :
  turn (spy env) prompt_id jsonlOutput fuel msgs (w, log)
  = spied (log ++ [(first_parts msgs, prompt_id)])
          (turn env prompt_id jsonlOutput fuel msgs w).
Proof.
  unfold turn. cbn [openStream spy fst snd]. rewrite spy_drain.
  destruct (drain env jsonlOutput fuel [] (openStream env (first_parts msgs) prompt_id w))
    as [[d w2] out].
  unfold spied at 1. cbn [result_of world_of trace_of fst snd].
  destruct d as [[|fc rest]| | |]; try reflexivity.
  rewrite spy_run_tools.
  destruct (run_tools env prompt_id jsonlOutput (fc :: rest) [] w2) as [[r w3] out'].
  destruct r; reflexivity.
Qed.

Lemma spy_session_loop fuel : forall msgs n w log,
  session_loop (spy env) config prompt_id jsonlOutput fuel msgs n (w, log)
  = spied (log ++ map (fun ps => (ps, prompt_id))
                      (sends (trace_of (session_loop env config prompt_id jsonlOutput
                                          fuel msgs n w))))
          (session_loop env config prompt_id jsonlOutput fuel msgs n w).
Proof.
  induction fuel as [|fuel IH]; intros msgs n w log.
  - unfold spied. simpl. rewrite app_nil_r. reflexivity.
  - cbn [session_loop].
    destruct ((0 <=? maxSessionTurns config) && (maxSessionTurns config <? n + 1)).
    + unfold spied. simpl. rewrite app_nil_r. reflexivity.
    + rewrite spy_turn.
      pose proof (turn_sends env prompt_id jsonlOutput fuel msgs w) as Hs.
      destruct (turn env prompt_id jsonlOutput fuel msgs w) as [[r w1] out].
      cbn [trace_of snd] in Hs.
      unfold spied at 1. cbn [result_of world_of trace_of fst snd].
      destruct r as [next|site|e|];
        try (unfold spied; cbn [result_of world_of trace_of fst snd];
             unfold sends in *; cbn [flat_map app]; rewrite Hs; reflexivity).
      rewrite IH.
      destruct (session_loop env config prompt_id jsonlOutput fuel next (n + 1) w1)
        as [[r' w2] out'].
      unfold spied. cbn [result_of world_of trace_of fst snd].
      unfold sends in *. cbn [flat_map app]. rewrite flat_map_app, Hs, map_app.
      cbn [map app]. rewrite <- app_assoc. reflexivity.
Qed.

Lemma spy_run fuel input w log :
  runNonInteractive (spy env) config prompt_id jsonlOutput fuel input (w, log)
  = spied (log ++ map (fun ps => (ps, prompt_id))
                      (sends (trace_of (runNonInteractive env config prompt_id jsonlOutput
                                          fuel input w))))
          (runNonInteractive env config prompt_id jsonlOutput fuel input w).
Proof.
  unfold runNonInteractive. rewrite spy_session_loop.
  destruct (session_loop env config prompt_id jsonlOutput fuel _ 0 w) as [[r w1] out].
  unfold spied at 1. cbn [result_of world_of trace_of fst snd].
  destruct (finalizer_quiet env w1) as [Hf _].
  destruct r as [site|e|]; unfold spied; cbn [result_of world_of trace_of fst snd];
    unfold sends in *; cbn [flat_map app]; rewrite ?flat_map_app, ?Hf;
    cbn [flat_map app]; rewrite ?app_nil_r; reflexivity.
Qed.

End SpyFacts.

(** C6.  A turn passes to the agent client the parts of the first message of
    its batch, the empty list when that message or its parts are missing; the
    messages after the first change nothing of the turn.  This is what the
    trace says of the call and what a client that is listened to receives: in
    a turn one call, with these parts; over a run, turn after turn, the first
    parts of the batches and nothing else. *)
Theorem first_message_parts_only :
  forall (World : Type) (env : Env World) (config : Config) (prompt_id : string)
         (jsonlOutput : bool) (fuel : nat),
    (forall m rest w,
        turn env prompt_id jsonlOutput fuel (m :: rest) w
        = turn env prompt_id jsonlOutput fuel [m] w) /\
    (forall msgs w,
        sends (trace_of (turn env prompt_id jsonlOutput fuel msgs w)) = [first_parts msgs]) /\
    (forall msgs w received,
        turn (spy env) prompt_id jsonlOutput fuel msgs (w, received)
        = spied (received ++ [(first_parts msgs, prompt_id)])
                (turn env prompt_id jsonlOutput fuel msgs w)) /\
    (forall input w,
        let tr := trace_of (runNonInteractive env config prompt_id jsonlOutput fuel input w) in
        sends tr = map first_parts (batches tr)) /\
    (forall input w received,
        let run := runNonInteractive env config prompt_id jsonlOutput fuel input w in
        runNonInteractive (spy env) config prompt_id jsonlOutput fuel input (w, received)
        = spied (received ++ map (fun ps => (ps, prompt_id))
                               (map first_parts (batches (trace_of run))))
                run) /\
    first_parts [] = [] /\
    (forall r rest, first_parts (mkContent r None :: rest) = []) /\
    (forall r ps rest, first_parts (mkContent r (Some ps) :: rest) = ps).
Proof.
  intros World env config prompt_id jsonlOutput fuel.
  assert (Hrun : forall input w,
            let tr := trace_of (runNonInteractive env config prompt_id jsonlOutput
                                  fuel input w) in
            sends tr = map first_parts (batches tr)).
  { intros input w. unfold runNonInteractive.
    pose proof (session_loop_sends env config prompt_id jsonlOutput fuel
                  [ {| role := "user"; parts := Some [text_part input] |} ] 0 w) as H.
    destruct (session_loop env config prompt_id jsonlOutput fuel _ 0 w) as [[r w1] out].
    simpl in H. unfold sends, batches, finalizer in *.
    destruct r as [site|e|]; simpl; rewrite ?flat_map_app, ?map_app, ?H;
      try destruct (isTelemetrySdkInitialized env w1); simpl;
      rewrite ?app_nil_r; reflexivity. }
  split; [intros; apply turn_first_message|].
  split; [intros; apply turn_sends|].
  split; [intros; apply spy_turn|].
  split; [exact Hrun|].
  split; [|repeat split].
  intros input w received. cbv zeta.
  rewrite <- (Hrun input w). apply spy_run.
Qed.

(** A batch of two messages, on the scripted session with a client that is
    listened to: the client receives the parts of the first message. *)
Example second_message_not_sent :
  world_of (turn (spy script_env) "p1" false 5
              [user_message [text_part "first"]; user_message [text_part "second"]]
              (greeting_world, []))
  = (world_of (turn script_env "p1" false 5 [user_message [text_part "first"]]
                 greeting_world),
     [([text_part "first"], "p1"%string)]).
Proof. reflexivity. Qed.

(* ================================================================== *)
(** ** One tool call                                                   *)
(* ================================================================== *)

Section ToolFacts.

Context {World : Type}.
Variable env : Env World.
Variable prompt_id : string.
Variable jsonlOutput : bool.

Lemma run_tool_resolved fc acc w resp w2 :
  executeToolCall env
    (request_info prompt_id (fst (resolve_callId env fc w)) fc)
    (snd (resolve_callId env fc w)) = (ToolResolved resp, w2) ->
  run_tool env prompt_id jsonlOutput fc acc w
  = (inr (push_response_parts acc (responseParts resp)),
     (if jsonlOutput then snd (now env w2) else w2),
     ExecuteToolCall (request_info prompt_id (fst (resolve_callId env fc w)) fc)
       (ToolResolved resp)
       :: result_writes env jsonlOutput (fst (resolve_callId env fc w)) fc resp w2
       ++ error_writes fc resp).
Proof.
  unfold run_tool, result_writes, error_writes, timestamp.
  destruct (resolve_callId env fc w) as [cid w1]. simpl. intros ->.
  destruct jsonlOutput; [destruct (now env w2) as [t w3]|]; reflexivity.
Qed.

Lemma run_tool_rejected fc acc w e w2 :
  executeToolCall env
    (request_info prompt_id (fst (resolve_callId env fc w)) fc)
    (snd (resolve_callId env fc w)) = (ToolRejected e, w2) ->
  run_tool env prompt_id jsonlOutput fc acc w
  = (inl e, w2,
     [ExecuteToolCall (request_info prompt_id (fst (resolve_callId env fc w)) fc)
        (ToolRejected e)]).
Proof.
  unfold run_tool. destruct (resolve_callId env fc w) as [cid w1]. simpl.
  intros ->. reflexivity.
Qed.



End ToolFacts.

(* ================================================================== *)
(** ** The identifier of a tool call                                   *)
(* ================================================================== *)




(* ================================================================== *)
(** ** The tool_result record and a tool's error                       *)
(* ================================================================== *)






(* ================================================================== *)
(** ** The tool calls of a turn                                        *)
(* ================================================================== *)

Section BatchFacts.

Context {World : Type}.
Variable env : Env World.
Variable prompt_id : string.
Variable jsonlOutput : bool.

Lemma on_event_collects event fcs w :
  fst (fst (on_event env jsonlOutput event fcs w))
    = fcs ++ map function_call_of (requests [event]) /\
  events_received (trace_of (on_event env jsonlOutput event fcs w)) = [] /\
  executions (trace_of (on_event env jsonlOutput event fcs w)) = [] /\
  records_of "tool_result" (trace_of (on_event env jsonlOutput event fcs w)) = [].
Proof.
  unfold on_event, timestamp.
  destruct event as [value|req|kind]; destruct jsonlOutput;
    try destruct (now env w); simpl; rewrite ?app_nil_r; repeat split;
    try (destruct (request_args req)); reflexivity.
Qed.

Lemma records_of_app ty a b :
  records_of ty (a ++ b) = records_of ty a ++ records_of ty b.
Proof. unfold records_of, records. rewrite flat_map_app, filter_app. reflexivity. Qed.

(** The function calls a finished stream leaves are its requests, in the
    order of their arrival; nothing is executed while the stream is read. *)
Lemma drain_collects fuel : forall fcs w fcs',
  result_of (drain env jsonlOutput fuel fcs w) = StreamDone fcs' ->
  fcs' = fcs ++ map function_call_of
                  (requests (events_received (trace_of (drain env jsonlOutput fuel fcs w)))).
Proof.
  induction fuel as [|fuel IH]; intros fcs w fcs'; simpl; [discriminate|].
  destruct (nextEvent env w) as [[event| |e] w1]; simpl.
  - destruct (aborted env w1); simpl; [discriminate|].
    destruct (on_event_collects event fcs w1) as (H1 & H2 & _).
    destruct (on_event env jsonlOutput event fcs w1) as [[fcs1 w2] out].
    simpl in H1, H2. specialize (IH fcs1 w2 fcs').
    destruct (drain env jsonlOutput fuel fcs1 w2) as [[r w3] out']. simpl in *.
    intros Hr. rewrite (IH Hr), H1. unfold events_received in *.
    rewrite flat_map_app, H2. simpl. unfold requests.
    rewrite app_nil_r, <- app_assoc, <- map_app.
    destruct event; simpl; rewrite ?app_nil_r; reflexivity.
  - intros H. injection H as <-. rewrite app_nil_r. reflexivity.
  - discriminate.
Qed.

Lemma drain_no_execution fuel : forall fcs w,
  executions (trace_of (drain env jsonlOutput fuel fcs w)) = [] /\
  records_of "tool_result" (trace_of (drain env jsonlOutput fuel fcs w)) = [].
Proof.
  induction fuel as [|fuel IH]; intros fcs w; simpl; [split; reflexivity|].
  destruct (nextEvent env w) as [[event| |e] w1]; simpl; try (split; reflexivity).
  destruct (aborted env w1); simpl; [split; reflexivity|].
  destruct (on_event_collects event fcs w1) as (_ & _ & H3 & H4).
  destruct (on_event env jsonlOutput event fcs w1) as [[fcs1 w2] out].
  simpl in H3, H4. specialize (IH fcs1 w2).
  destruct (drain env jsonlOutput fuel fcs1 w2) as [[r w3] out']. simpl in *.
  destruct IH as [IH1 IH2]. split.
  - unfold executions in *. rewrite flat_map_app, H3, IH1. reflexivity.
  - change (NextEvent (Yield event) :: out ++ out')
      with ([NextEvent (Yield event)] ++ out ++ out').
    rewrite !records_of_app, H4, IH2. reflexivity.
Qed.

Lemma push_part_app acc part :
  push_part acc part = acc ++ push_part [] part.
Proof. destruct part; simpl; rewrite ?app_nil_r; reflexivity. Qed.

Lemma fold_push_part entries : forall acc,
  fold_left push_part entries acc = acc ++ flat_map spec_normalize_entry entries.
Proof.
  induction entries as [|part rest IH]; intros acc; simpl.
  - rewrite app_nil_r. reflexivity.
  - rewrite IH. destruct part; simpl; rewrite <- ?app_assoc; reflexivity.
Qed.

Lemma push_response_parts_app acc rp :
  push_response_parts acc rp = acc ++ push_response_parts [] rp.
Proof.
  unfold push_response_parts. destruct (truthy_parts rp).
  - destruct rp as [[part|entries]|]; rewrite ?fold_push_part; simpl;
      rewrite ?app_nil_r; reflexivity.
  - rewrite app_nil_r. reflexivity.
Qed.

(** The parts the driver keeps of a response are those of the worded
    normalisation, but for a response whose parts are one empty string. *)
Lemma push_response_parts_spec rp :
  rp <> Some (single (PU_string "")) ->
  push_response_parts [] rp = spec_normalize rp.
Proof.
  intros Hne. unfold push_response_parts, spec_normalize.
  destruct rp as [[[s|p|]|entries]|]; simpl; try reflexivity.
  - destruct (String.eqb_spec s ""); [subst; contradiction | reflexivity].
  - apply fold_push_part.
Qed.

End BatchFacts.

Lemma events_received_app a b :
  events_received (a ++ b) = events_received a ++ events_received b.
Proof. apply flat_map_app. Qed.

Lemma executions_app a b : executions (a ++ b) = executions a ++ executions b.
Proof. apply flat_map_app. Qed.

Lemma responses_app a b : responses (a ++ b) = responses a ++ responses b.
Proof. apply flat_map_app. Qed.

(** The call of the agent client is no event, no execution and no record. *)
Lemma send_is_quiet ps pid tr :
  events_received (SendMessageStream ps pid :: tr) = events_received tr /\
  executions (SendMessageStream ps pid :: tr) = executions tr /\
  responses (SendMessageStream ps pid :: tr) = responses tr /\
  records (SendMessageStream ps pid :: tr) = records tr.
Proof. repeat split. Qed.

Section ToolLoopFacts.

Context {World : Type}.
Variable env : Env World.
Variable prompt_id : string.
Variable jsonlOutput : bool.

(** The calls of the executor follow the function calls, one for one, until
    the list ends or a call throws. *)
Lemma run_tools_prefix fcs : forall acc w,
  let tr := trace_of (run_tools env prompt_id jsonlOutput fcs acc w) in
  Forall2 (made_for prompt_id) (firstn (List.length (executions tr)) fcs) (executions tr).
Proof.
  induction fcs as [|fc rest IH]; intros acc w; [constructor|].
  cbn zeta. cbn [run_tools].
  destruct (executeToolCall env
              (request_info prompt_id (fst (resolve_callId env fc w)) fc)
              (snd (resolve_callId env fc w))) as [[resp|e] w2] eqn:He.
  - rewrite (run_tool_resolved env prompt_id jsonlOutput fc acc w resp w2 He).
    specialize (IH (push_response_parts acc (responseParts resp))
                   (if jsonlOutput then snd (now env w2) else w2)).
    destruct (run_tools env prompt_id jsonlOutput rest _ _) as [[r' w3] out'].
    cbn zeta in IH. simpl in IH. simpl.
    unfold executions in *. rewrite !flat_map_app.
    unfold result_writes, error_writes.
    destruct jsonlOutput; destruct (error resp); simpl;
      (constructor; [reflexivity | exact IH]).
  - rewrite (run_tool_rejected env prompt_id jsonlOutput fc acc w e w2 He).
    simpl. constructor; [reflexivity | constructor].
Qed.

(** A tool loop that ran to its end. *)
Lemma run_tools_complete fcs : forall acc w ps,
  result_of (run_tools env prompt_id jsonlOutput fcs acc w) = inr ps ->
  let tr := trace_of (run_tools env prompt_id jsonlOutput fcs acc w) in
  sequential prompt_id jsonlOutput fcs (tool_steps tr) /\
  ps = acc ++ flat_map (fun resp => push_response_parts [] (responseParts resp))
                       (responses tr) /\
  List.length (executions tr) = List.length fcs /\
  List.length (records_of "tool_result" tr)
    = (if jsonlOutput then List.length fcs else O) /\
  events_received tr = [].
Proof.
  induction fcs as [|fc rest IH]; intros acc w ps.
  - simpl. intros H. injection H as <-. rewrite app_nil_r.
    repeat split; try constructor. destruct jsonlOutput; reflexivity.
  - cbn zeta. cbn [run_tools].
    destruct (executeToolCall env
                (request_info prompt_id (fst (resolve_callId env fc w)) fc)
                (snd (resolve_callId env fc w))) as [[resp|e] w2] eqn:He.
    + rewrite (run_tool_resolved env prompt_id jsonlOutput fc acc w resp w2 He).
      specialize (IH (push_response_parts acc (responseParts resp))
                     (if jsonlOutput then snd (now env w2) else w2) ps).
      destruct (run_tools env prompt_id jsonlOutput rest _ _) as [[r' w3] out'].
      cbn zeta in IH. simpl in IH. simpl. intros Hr.
      destruct (IH Hr) as (Hseq & Hps & Hlen & Hrec & Hev). clear IH.
      rewrite <- app_assoc.
      change (ExecuteToolCall ?r ?o :: ?l) with ([ExecuteToolCall r o] ++ l).
      unfold tool_steps, responses, executions, events_received in *.
      rewrite !records_of_app, !flat_map_app, !length_app, Hev, Hlen, Hrec.
      unfold result_writes, error_writes.
      rewrite (push_response_parts_app acc) in Hps. rewrite <- app_assoc in Hps.
      destruct jsonlOutput; destruct (error resp); simpl;
        (split; [| split; [exact Hps | split; [reflexivity | split; reflexivity]]]);
        solve [ apply sequential_record; auto
              | apply sequential_plain; auto ].
    + rewrite (run_tool_rejected env prompt_id jsonlOutput fc acc w e w2 He).
      simpl. discriminate.
Qed.

(** A turn that went on to its tools: the stream ended with function calls,
    the tool loop ran them all, and the replies are the next batch. *)
Lemma turn_decompose fuel msgs w next :
  result_of (turn env prompt_id jsonlOutput fuel msgs w) = TurnContinue next ->
  exists fcs w2 out ps w3 out',
    drain env jsonlOutput fuel [] (openStream env (first_parts msgs) prompt_id w)
      = (StreamDone fcs, w2, out) /\
    fcs <> [] /\
    run_tools env prompt_id jsonlOutput fcs [] w2 = (inr ps, w3, out') /\
    next = [user_message ps] /\
    turn env prompt_id jsonlOutput fuel msgs w
      = (TurnContinue next, w3,
         SendMessageStream (first_parts msgs) prompt_id :: out ++ out').
Proof.
  unfold turn.
  destruct (drain env jsonlOutput fuel [] _) as [[d w2] out].
  destruct d as [[|fc rest]| | |]; cbv beta iota; try (simpl; discriminate).
  destruct (run_tools env prompt_id jsonlOutput (fc :: rest) [] w2)
    as [[[e|ps] w3] out'] eqn:Ht; cbn [result_of fst]; [discriminate|].
  intros H. injection H as <-.
  exists (fc :: rest), w2, out, ps, w3, out'.
  split; [reflexivity|]. split; [discriminate|].
  split; [exact Ht|]. split; reflexivity.
Qed.

(** In JSONL mode every call that returns has its one tool_result record,
    and a call that throws has none. *)
Lemma run_tools_records fcs : forall acc w,
  let tr := trace_of (run_tools env prompt_id jsonlOutput fcs acc w) in
  List.length (records_of "tool_result" tr)
    = (if jsonlOutput then List.length (responses tr) else O).
Proof.
  induction fcs as [|fc rest IH]; intros acc w.
  - simpl. destruct jsonlOutput; reflexivity.
  - cbn zeta. cbn [run_tools].
    destruct (executeToolCall env
                (request_info prompt_id (fst (resolve_callId env fc w)) fc)
                (snd (resolve_callId env fc w))) as [[resp|e] w2] eqn:He.
    + rewrite (run_tool_resolved env prompt_id jsonlOutput fc acc w resp w2 He).
      specialize (IH (push_response_parts acc (responseParts resp))
                     (if jsonlOutput then snd (now env w2) else w2)).
      destruct (run_tools env prompt_id jsonlOutput rest _ _) as [[r' w3] out'].
      cbn zeta in IH. simpl in IH. simpl.
      change (ExecuteToolCall ?r ?o :: ?l) with ([ExecuteToolCall r o] ++ l).
      unfold responses in *.
      rewrite !records_of_app, !flat_map_app, !length_app, IH.
      unfold result_writes, error_writes.
      destruct jsonlOutput; destruct (error resp); reflexivity.
    + rewrite (run_tool_rejected env prompt_id jsonlOutput fc acc w e w2 He).
      simpl. destruct jsonlOutput; reflexivity.
Qed.

(** A call that throws ends the tool loop: it is the last call, and the
    loop throws what the call threw. *)
Lemma run_tools_throw_last fcs : forall acc w r e,
  let t := run_tools env prompt_id jsonlOutput fcs acc w in
  In (r, ToolRejected e) (executions (trace_of t)) ->
  result_of t = inl e /\
  exists pre, executions (trace_of t) = pre ++ [(r, ToolRejected e)].
Proof.
  induction fcs as [|fc rest IH]; intros acc w r e; [simpl; intros []|].
  cbn zeta. cbn [run_tools].
  destruct (executeToolCall env
              (request_info prompt_id (fst (resolve_callId env fc w)) fc)
              (snd (resolve_callId env fc w))) as [[resp|e0] w2] eqn:He.
  - rewrite (run_tool_resolved env prompt_id jsonlOutput fc acc w resp w2 He).
    specialize (IH (push_response_parts acc (responseParts resp))
                   (if jsonlOutput then snd (now env w2) else w2) r e).
    destruct (run_tools env prompt_id jsonlOutput rest _ _) as [[r' w3] out'].
    cbn zeta in IH. simpl in IH. simpl.
    unfold executions in *. unfold result_writes, error_writes.
    destruct jsonlOutput; destruct (error resp); simpl;
      (intros [H|H]; [discriminate|]);
      destruct (IH H) as (Hr & pre & Hpre); (split; [exact Hr|]);
      eexists (_ :: pre); rewrite Hpre; reflexivity.
  - rewrite (run_tool_rejected env prompt_id jsonlOutput fc acc w e0 w2 He).
    simpl. intros [H|[]]. injection H as <- <-.
    split; [reflexivity|]. exists []. reflexivity.
Qed.

(** A tool loop in which no call throws runs to its end. *)
Lemma run_tools_no_throw fcs : forall acc w,
  (forall r e, ~ In (r, ToolRejected e)
                    (executions (trace_of (run_tools env prompt_id jsonlOutput fcs acc w)))) ->
  exists ps, result_of (run_tools env prompt_id jsonlOutput fcs acc w) = inr ps.
Proof.
  induction fcs as [|fc rest IH]; intros acc w; [intros _; eexists; reflexivity|].
  cbn [run_tools].
  destruct (executeToolCall env
              (request_info prompt_id (fst (resolve_callId env fc w)) fc)
              (snd (resolve_callId env fc w))) as [[resp|e0] w2] eqn:He.
  - rewrite (run_tool_resolved env prompt_id jsonlOutput fc acc w resp w2 He).
    specialize (IH (push_response_parts acc (responseParts resp))
                   (if jsonlOutput then snd (now env w2) else w2)).
    destruct (run_tools env prompt_id jsonlOutput rest _ _) as [[r' w3] out'].
    simpl in IH. simpl. unfold executions in *. unfold result_writes, error_writes.
    destruct jsonlOutput; destruct (error resp); simpl;
      intros Hno; apply IH; intros r e Hin; apply (Hno r e); right; exact Hin.
  - rewrite (run_tool_rejected env prompt_id jsonlOutput fc acc w e0 w2 He).
    simpl. intros Hno. exfalso.
    apply (Hno (request_info prompt_id (fst (resolve_callId env fc w)) fc) e0).
    left. reflexivity.
Qed.

(** The tool loop reads no event. *)
Lemma run_tools_no_event fcs acc w :
  let tr := trace_of (run_tools env prompt_id jsonlOutput fcs acc w) in
  events_received tr = [] /\ ~ In (NextEvent Done) tr.
Proof.
  cbn zeta. pose proof (run_tools_effects env prompt_id jsonlOutput fcs acc w) as H.
  split.
  - apply (flat_map_nil_on _ _ _ H).
    intros [| | | |[]|[]| | | |]; simpl; tauto.
  - intros Hin. rewrite Forall_forall in H. exact (H _ Hin).
Qed.

(** A stream that is seen to end leaves its function calls; and no response
    of a tool is had while the stream is read. *)
Lemma drain_done fuel : forall fcs w,
  In (NextEvent Done) (trace_of (drain env jsonlOutput fuel fcs w)) ->
  exists fcs', result_of (drain env jsonlOutput fuel fcs w) = StreamDone fcs'.
Proof.
  induction fuel as [|fuel IH]; intros fcs w; simpl; [intros []|].
  destruct (nextEvent env w) as [[event| |e] w1]; simpl.
  - destruct (aborted env w1); simpl.
    + intros [H|[H|[]]]; discriminate.
    + assert (Hq : ~ In (NextEvent Done) (trace_of (on_event env jsonlOutput event fcs w1))).
      { unfold on_event, timestamp.
        destruct event; destruct jsonlOutput; try destruct (now env w1); simpl;
          intuition discriminate. }
      destruct (on_event env jsonlOutput event fcs w1) as [[fcs1 w2] out].
      specialize (IH fcs1 w2).
      destruct (drain env jsonlOutput fuel fcs1 w2) as [[r w3] out']. simpl in *.
      intros [H|H]; [discriminate|]. apply in_app_or in H.
      destruct H as [H|H]; [contradiction | exact (IH H)].
  - intros _. eexists. reflexivity.
  - intros [H|[]]. discriminate.
Qed.

Lemma drain_no_response fuel fcs w :
  responses (trace_of (drain env jsonlOutput fuel fcs w)) = [].
Proof.
  apply (flat_map_nil_on _ _ _ (drain_effects env jsonlOutput fuel fcs w)).
  intros [| | | |[]|[]| | | |]; simpl; tauto.
Qed.

(** The two ways of a turn: its stream ended with function calls and the
    tool loop was run, or the turn ended with its stream. *)
Lemma turn_cases fuel msgs w :
  let d := drain env jsonlOutput fuel [] (openStream env (first_parts msgs) prompt_id w) in
  let t := turn env prompt_id jsonlOutput fuel msgs w in
  (exists fcs,
     result_of d = StreamDone fcs /\ fcs <> [] /\
     let l := run_tools env prompt_id jsonlOutput fcs [] (world_of d) in
     trace_of t = SendMessageStream (first_parts msgs) prompt_id
                    :: trace_of d ++ trace_of l /\
     result_of t = match result_of l with
                   | inl e => TurnRejected e
                   | inr ps => TurnContinue [user_message ps]
                   end) \/
  ((forall fcs, result_of d = StreamDone fcs -> fcs = []) /\
   exists tail,
     trace_of t = SendMessageStream (first_parts msgs) prompt_id :: trace_of d ++ tail /\
     (tail = [] \/ tail = [StdoutWrite FinalNewline])).
Proof.
  cbn zeta. unfold turn.
  destruct (drain env jsonlOutput fuel [] _) as [[d w2] out].
  destruct d as [[|fc rest]| | |]; cbv beta iota.
  - right. split; [intros fcs H; injection H as <-; reflexivity|].
    exists [StdoutWrite FinalNewline]. simpl. split; [reflexivity | right; reflexivity].
  - left. exists (fc :: rest). split; [reflexivity|]. split; [discriminate|].
    cbn [world_of fst snd].
    destruct (run_tools env prompt_id jsonlOutput (fc :: rest) [] w2) as [[r w3] out'].
    destruct r; simpl; split; reflexivity.
  - right. split; [discriminate|]. exists []. simpl. rewrite app_nil_r.
    split; [reflexivity | left; reflexivity].
  - right. split; [discriminate|]. exists []. simpl. rewrite app_nil_r.
    split; [reflexivity | left; reflexivity].
  - right. split; [discriminate|]. exists []. simpl. rewrite app_nil_r.
    split; [reflexivity | left; reflexivity].
Qed.

End ToolLoopFacts.

(** C5, as the code has it.  In every turn the executor is called for the
    first requests of the stream, in the order they arrived, one call for
    one request; in JSONL mode every call that returns has exactly one
    tool_result record.  A call that throws is the last call of its turn, has
    no record, and the turn throws what it threw.  When the stream has ended
    and no call throws, a turn whose stream produced N requests makes exactly
    N calls, one after the other: each call, and in JSONL mode its one
    tool_result record, comes before the next call. *)
Theorem tool_calls_sequential :
  forall (World : Type) (env : Env World) (prompt_id : string) (jsonlOutput : bool)
         (fuel : nat) (msgs : list Content) (w : World),
    let t := turn env prompt_id jsonlOutput fuel msgs w in
    let tr := trace_of t in
    let reqs := requests (events_received tr) in
    Forall2 (made_for prompt_id)
            (firstn (List.length (executions tr)) (map function_call_of reqs))
            (executions tr) /\
    List.length (records_of "tool_result" tr)
      = (if jsonlOutput then List.length (responses tr) else O) /\
    (forall r e,
        In (r, ToolRejected e) (executions tr) ->
        result_of t = TurnRejected e /\
        exists pre, executions tr = pre ++ [(r, ToolRejected e)]) /\
    (In (NextEvent Done) tr ->
     (forall r e, ~ In (r, ToolRejected e) (executions tr)) ->
       List.length (executions tr) = List.length reqs /\
       List.length (records_of "tool_result" tr)
         = (if jsonlOutput then List.length reqs else O) /\
       exists stream_out tools_out,
         tr = SendMessageStream (first_parts msgs) prompt_id :: stream_out ++ tools_out /\
         executions stream_out = [] /\
         sequential prompt_id jsonlOutput (map function_call_of reqs)
                    (tool_steps tools_out)).
Proof.
  intros World env prompt_id jsonlOutput fuel msgs w t tr reqs.
  set (d := drain env jsonlOutput fuel [] (openStream env (first_parts msgs) prompt_id w)).
  pose proof (drain_collects env jsonlOutput fuel []
                (openStream env (first_parts msgs) prompt_id w)) as Hfcs.
  pose proof (drain_no_execution env jsonlOutput fuel []
                (openStream env (first_parts msgs) prompt_id w)) as [Hx Hrx].
  pose proof (drain_no_response env jsonlOutput fuel []
                (openStream env (first_parts msgs) prompt_id w)) as Hrs.
  pose proof (drain_done env jsonlOutput fuel []
                (openStream env (first_parts msgs) prompt_id w)) as Hdone.
  fold d in Hfcs, Hx, Hrx, Hrs, Hdone.
  destruct (turn_cases env prompt_id jsonlOutput fuel msgs w)
    as [(fcs & Hd & Hne & Htr & Hres) | (Hnil & tail & Htr & Htail)];
    cbv zeta in Htr; fold d in Htr; fold t in Htr; fold tr in Htr.
  - cbv zeta in Hres. fold d in Hd, Hres. fold t in Hres.
    set (l := run_tools env prompt_id jsonlOutput fcs [] (world_of d)) in *.
    destruct (run_tools_no_event env prompt_id jsonlOutput fcs [] (world_of d))
      as [Hev Hnd]. fold l in Hev, Hnd.
    assert (Hreq : map function_call_of reqs = fcs).
    { subst reqs. rewrite Htr.
      rewrite (proj1 (send_is_quiet _ _ _)), events_received_app, Hev, app_nil_r.
      symmetry. exact (Hfcs fcs Hd). }
    assert (Hex : executions tr = executions (trace_of l)).
    { rewrite Htr.
      rewrite (proj1 (proj2 (send_is_quiet _ _ _))), executions_app, Hx. reflexivity. }
    assert (Hrec : records_of "tool_result" tr = records_of "tool_result" (trace_of l)).
    { rewrite Htr.
      change (SendMessageStream ?a ?b :: ?x) with ([SendMessageStream a b] ++ x).
      rewrite !records_of_app, Hrx. reflexivity. }
    assert (Hresp : responses tr = responses (trace_of l)).
    { rewrite Htr.
      rewrite (proj1 (proj2 (proj2 (send_is_quiet _ _ _)))), responses_app, Hrs.
      reflexivity. }
    assert (Hlen : List.length reqs = List.length fcs)
      by (rewrite <- Hreq; symmetry; apply length_map).
    rewrite Hex, Hrec, Hresp, Hreq, Hlen.
    split; [apply run_tools_prefix|]. split; [apply run_tools_records|]. split.
    + intros r e Hin.
      destruct (run_tools_throw_last env prompt_id jsonlOutput fcs [] (world_of d) r e Hin)
        as [Hr Hpre]. fold l in Hr, Hpre.
      split; [rewrite Hres, Hr; reflexivity | exact Hpre].
    + intros _ Hno.
      destruct (run_tools_no_throw env prompt_id jsonlOutput fcs [] (world_of d) Hno)
        as [ps Hps]. fold l in Hps.
      destruct (run_tools_complete env prompt_id jsonlOutput fcs [] (world_of d) ps Hps)
        as (Hseq & _ & Hn & Hrc & _). fold l in Hseq, Hn, Hrc.
      split; [exact Hn|]. split; [exact Hrc|].
      exists (trace_of d), (trace_of l). split; [exact Htr|]. split; assumption.
  - assert (Hex : executions tr = []).
    { rewrite Htr.
      rewrite (proj1 (proj2 (send_is_quiet _ _ _))), executions_app, Hx.
      destruct Htail as [-> | ->]; reflexivity. }
    assert (Hrec : records_of "tool_result" tr = []).
    { rewrite Htr.
      change (SendMessageStream ?a ?b :: ?x) with ([SendMessageStream a b] ++ x).
      rewrite !records_of_app, Hrx. destruct Htail as [-> | ->]; reflexivity. }
    assert (Hresp : responses tr = []).
    { rewrite Htr.
      rewrite (proj1 (proj2 (proj2 (send_is_quiet _ _ _)))), responses_app, Hrs.
      destruct Htail as [-> | ->]; reflexivity. }
    rewrite Hex, Hrec, Hresp. simpl.
    split; [constructor|]. split; [destruct jsonlOutput; reflexivity|].
    split; [intros r e []|].
    intros Hin _.
    assert (Hin' : In (NextEvent Done) (trace_of d)).
    { rewrite Htr in Hin. destruct Hin as [H|H]; [discriminate|].
      apply in_app_or in H. destruct H as [H|H]; [exact H|].
      destruct Htail as [-> | ->]; [destruct H | destruct H as [H|[]]; discriminate]. }
    destruct (Hdone Hin') as [fcs Hd].
    pose proof (Hnil fcs Hd) as ->.
    assert (Hreq : map function_call_of reqs = []).
    { subst reqs. rewrite Htr.
      rewrite (proj1 (send_is_quiet _ _ _)), events_received_app.
      replace (events_received tail) with (@nil GeminiEvent)
        by (destruct Htail as [-> | ->]; reflexivity).
      rewrite app_nil_r. symmetry. exact (Hfcs [] Hd). }
    assert (Hlen : List.length reqs = O)
      by (rewrite <- (length_map function_call_of), Hreq; reflexivity).
    rewrite Hreq, Hlen.
    split; [reflexivity|]. split; [destruct jsonlOutput; reflexivity|].
    exists (trace_of d), tail. split; [exact Htr|]. split; [exact Hx|].
    destruct Htail as [-> | ->]; constructor.
Qed.

(** The first turn of the scripted session, whose tool answers with an
    error: one request, one call, one record.  And a turn whose first call
    throws. *)
Lemma tool_calls_sequential_witness :
  let tr := trace_of (turn script_env "p1" true 5 [user_message [text_part "hello"]]
                        demo_world) in
  let t' := turn script_env "p1" true 5 [user_message [text_part "hello"]]
              throwing_world in
  (List.length (executions tr) = 1%nat /\
   List.length (records_of "tool_result" tr) = 1%nat) /\
  (result_of t' = TurnRejected "tool crashed" /\
   exists pre,
     executions (trace_of t')
     = pre ++ [(request_info "p1" "search-2" (function_call_of search_request),
                ToolRejected "tool crashed")]).
Proof.
  pose proof (tool_calls_sequential Script script_env "p1" true 5%nat
                [user_message [text_part "hello"]] demo_world) as (_ & _ & _ & Hall).
  pose proof (tool_calls_sequential Script script_env "p1" true 5%nat
                [user_message [text_part "hello"]] throwing_world) as (_ & _ & Hthrow & _).
  split.
  - destruct Hall as (Hlen & Hrec & _).
    + vm_compute. tauto.
    + intros r e H. vm_compute in H. intuition discriminate.
    + split; [exact Hlen | exact Hrec].
  - apply Hthrow. left. reflexivity.
Defined.

(** C5, as it is claimed, in JSONL mode.  A stream with two requests and an
    executor that throws on the first call: one call is made, not two, and no
    tool_result record is written.  And a stream with one request that is
    cancelled before its end: no call is made. *)
Lemma throwing_call_counterexample :
  let tr := trace_of (turn script_env "p1" true 5 [user_message [text_part "hello"]]
                        throwing_world) in
  let tr' := trace_of (turn script_env "p1" true 5 [user_message [text_part "hello"]]
                         interrupted_world) in
  (List.length (requests (events_received tr)) = 2%nat /\
   List.length (executions tr) = 1%nat /\
   List.length (records_of "tool_result" tr) = 0%nat /\
   List.length (executions tr) <> List.length (requests (events_received tr))) /\
  (List.length (requests (events_received tr')) = 1%nat /\
   List.length (executions tr') = 0%nat /\
   List.length (executions tr') <> List.length (requests (events_received tr'))).
Proof.
  vm_compute. repeat split; discriminate.
Qed.

(* ================================================================== *)
(** ** The message batch                                               *)
(* ================================================================== *)

Lemma session_loop_batches {World : Type} (env : Env World) (config : Config)
    (prompt_id : string) (jsonlOutput : bool) (fuel : nat) :
  forall msgs n w,
    one_user_message msgs ->
    let tr := trace_of (session_loop env config prompt_id jsonlOutput fuel msgs n w) in
    Forall one_user_message (batches tr) /\
    (batches tr = [] \/ exists later, batches tr = msgs :: later).
Proof.
  induction fuel as [|fuel IH]; intros msgs n w Hm; cbn zeta; simpl.
  - split; [constructor | left; reflexivity].
  - destruct ((0 <=? maxSessionTurns config) && (maxSessionTurns config <? n + 1)).
    + split; [constructor | left; reflexivity].
    + destruct (turn_shape env prompt_id jsonlOutput fuel msgs w) as (body & Hb & Hf).
      pose proof (turn_body_batches jsonlOutput body Hf) as Hbt.
      pose proof (turn_decompose env prompt_id jsonlOutput fuel msgs w) as Hdec.
      destruct (turn env prompt_id jsonlOutput fuel msgs w) as [[r w1] out].
      simpl in Hb. subst out. unfold batches in *.
      destruct r as [next|site|e|]; simpl; rewrite ?flat_map_app, ?Hbt; simpl;
        try (split; [repeat constructor; assumption | right; eexists; reflexivity]).
      destruct (Hdec next eq_refl) as (_ & _ & _ & ps & _ & _ & _ & _ & _ & Hn & _).
      specialize (IH next (n + 1) w1 (ex_intro _ ps Hn)).
      destruct (session_loop env config prompt_id jsonlOutput fuel next (n + 1) w1)
        as [[r' w2] out']. cbn zeta in IH. simpl in *.
      rewrite !flat_map_app, Hbt. simpl. destruct IH as [IH _].
      split; [constructor; assumption | right; eexists; reflexivity].
Qed.

(** C7 at the input on which the code departs from it: a tool whose response
    parts are the empty string, alone.  The claimed normalisation wraps it
    as a text part, and so does the driver when it finds the empty string in
    a sequence; found alone, the driver keeps nothing of it, and the next
    batch is a user message without parts. *)
Theorem single_empty_string_dropped :
  let alone := turn script_env "p1" false 5 [user_message [text_part "hello"]]
                 empty_reply_world in
  let in_sequence := turn script_env "p1" false 5 [user_message [text_part "hello"]]
                       empty_entry_world in
  map responseParts (responses (trace_of alone)) = [Some (single (PU_string ""))] /\
  spec_normalize (Some (single (PU_string ""))) = [text_part ""] /\
  result_of alone = TurnContinue [user_message []] /\
  map responseParts (responses (trace_of in_sequence)) = [Some (many [PU_string ""])] /\
  spec_normalize (Some (many [PU_string ""])) = [text_part ""] /\
  result_of in_sequence = TurnContinue [user_message [text_part ""]] /\
  sends (trace_of (runNonInteractive script_env (demo_config (-1)) "p1" false 5 "hello"
                     empty_reply_world))
    = [[text_part "hello"]; []].
Proof.
  vm_compute. repeat split.
Qed.

(* ================================================================== *)
(** ** From one batch to the next                                      *)
(* ================================================================== *)

Lemma expected_batches_no_turn tr :
  batches tr = [] -> forall current, expected_batches current tr = [].
Proof.
  induction tr as [|x tr IH]; intros Hb current; [reflexivity|].
  destruct x as [| | | | | |r [resp|e]| | |]; simpl in *;
    try discriminate; apply IH; exact Hb.
Qed.

Lemma expected_batches_quiet_tail tail :
  batches tail = [] ->
  forall tr current,
    expected_batches current (tr ++ tail) = expected_batches current tr.
Proof.
  intros Hb. induction tr as [|x tr IH]; intros current.
  - simpl. apply expected_batches_no_turn. exact Hb.
  - destruct x as [| | | | | |r [resp|e]| | |]; simpl; rewrite ?IH; reflexivity.
Qed.

(** Inside a turn the batch in the making takes the parts kept of every
    response, in the order of the calls. *)
Lemma expected_batches_turn out :
  batches out = [] ->
  forall acc rest,
    expected_batches [user_message acc] (out ++ rest)
    = expected_batches
        [user_message
           (acc ++ flat_map (fun resp => push_response_parts [] (responseParts resp))
                            (responses out))]
        rest.
Proof.
  induction out as [|x out IH]; intros Hb acc rest.
  - simpl. rewrite app_nil_r. reflexivity.
  - destruct x as [| | | | | |r [resp|e]| | |]; simpl in *;
      try discriminate; rewrite ?(IH Hb); try reflexivity.
    rewrite (push_response_parts_app acc), <- app_assoc. reflexivity.
Qed.

Section BatchChain.

Context {World : Type}.
Variable env : Env World.
Variable config : Config.
Variable prompt_id : string.
Variable jsonlOutput : bool.

(** The batch a turn leaves is the user message of the parts kept of its
    responses. *)
Lemma turn_next_batch fuel msgs w next :
  result_of (turn env prompt_id jsonlOutput fuel msgs w) = TurnContinue next ->
  next = [user_message
            (flat_map (fun resp => push_response_parts [] (responseParts resp))
               (responses (trace_of (turn env prompt_id jsonlOutput fuel msgs w))))].
Proof.
  intros Ht.
  destruct (turn_decompose env prompt_id jsonlOutput fuel msgs w next Ht)
    as (fcs & w2 & out & ps & w3 & out' & Hd & _ & Hr & Hnext & Hturn).
  pose proof (run_tools_complete env prompt_id jsonlOutput fcs [] w2 ps) as Hc.
  rewrite Hr in Hc. cbn zeta in Hc. simpl in Hc.
  destruct (Hc eq_refl) as (_ & Hps & _). clear Hc.
  pose proof (drain_no_response env jsonlOutput fuel []
                (openStream env (first_parts msgs) prompt_id w)) as Hro.
  rewrite Hd in Hro. simpl in Hro.
  rewrite Hturn. cbn [trace_of snd].
  rewrite (proj1 (proj2 (proj2 (send_is_quiet _ _ _)))), responses_app, Hro.
  simpl. rewrite Hnext, Hps. reflexivity.
Qed.

(** Every batch of the loop is the one its trace accounts for. *)
Lemma session_loop_batch_chain fuel : forall msgs n w,
  let tr := trace_of (session_loop env config prompt_id jsonlOutput fuel msgs n w) in
  batches tr = expected_batches msgs tr.
Proof.
  induction fuel as [|fuel IH]; intros msgs n w; cbv zeta; [reflexivity|].
  cbn [session_loop].
  destruct ((0 <=? maxSessionTurns config) && (maxSessionTurns config <? n + 1));
    [reflexivity|].
  destruct (turn_shape env prompt_id jsonlOutput fuel msgs w) as (body & Hb & Hf).
  pose proof (turn_body_batches jsonlOutput body Hf) as Hbt.
  pose proof (turn_next_batch fuel msgs w) as Hnext.
  destruct (turn env prompt_id jsonlOutput fuel msgs w) as [[r w1] out].
  cbn [trace_of result_of fst snd] in Hb, Hnext. subst out.
  assert (Hq : batches (SendMessageStream (first_parts msgs) prompt_id :: body) = [])
    by exact Hbt.
  destruct r as [next|site|e|]; cbn [trace_of snd].
  - specialize (IH next (n + 1) w1). cbv zeta in IH.
    destruct (session_loop env config prompt_id jsonlOutput fuel next (n + 1) w1)
      as [[r' w2] out']. cbn [trace_of snd] in *.
    rewrite (Hnext next eq_refl) in IH.
    cbn [expected_batches app].
    rewrite (expected_batches_turn _ Hbt [] out'). cbn [app].
    rewrite (proj1 (proj2 (proj2 (send_is_quiet _ _ _)))) in IH.
    unfold batches in *. cbn [flat_map app]. rewrite flat_map_app, Hbt.
    cbn [app]. f_equal. exact IH.
  - cbn [expected_batches app]. rewrite (expected_batches_no_turn _ Hbt).
    unfold batches in *. cbn [flat_map app]. rewrite Hbt. reflexivity.
  - cbn [expected_batches app]. rewrite (expected_batches_no_turn _ Hbt).
    unfold batches in *. cbn [flat_map app]. rewrite Hbt. reflexivity.
  - cbn [expected_batches app]. rewrite (expected_batches_no_turn _ Hbt).
    unfold batches in *. cbn [flat_map app]. rewrite Hbt. reflexivity.
Qed.

Lemma run_batch_chain fuel input w :
  let tr := trace_of (runNonInteractive env config prompt_id jsonlOutput fuel input w) in
  batches tr = expected_batches [user_message [text_part input]] tr.
Proof.
  cbv zeta. unfold runNonInteractive.
  change [ {| role := "user"; parts := Some [text_part input] |} ]
    with [user_message [text_part input]].
  pose proof (session_loop_batch_chain fuel [user_message [text_part input]] 0 w) as H.
  cbv zeta in H.
  destruct (session_loop env config prompt_id jsonlOutput fuel _ 0 w) as [[r w1] out].
  cbn [trace_of snd] in H.
  assert (Hfin : batches (finalizer env w1) = [])
    by (unfold finalizer; destruct (isTelemetrySdkInitialized env w1); reflexivity).
  assert (Happ : forall tail, batches tail = [] ->
            batches (PatchConsole (debugMode config) :: out ++ tail) = batches out).
  { intros tail Ht. unfold batches in *. cbn [flat_map app].
    rewrite flat_map_app, Ht, app_nil_r. reflexivity. }
  destruct r as [site|e|]; cbn [trace_of snd app expected_batches].
  - rewrite (expected_batches_quiet_tail _ Hfin), (Happ _ Hfin). exact H.
  - set (tail := [ConsoleError _; ProcessExit 1]).
    assert (Htail : batches tail = []) by reflexivity.
    rewrite (expected_batches_quiet_tail _ Htail), (Happ _ Htail). exact H.
  - exact H.
Qed.

End BatchChain.

(** X13.  From one batch to the next.  Every turn of a run starts with a
    batch of exactly one user message: the first holds the input text, and
    every later one holds, response after response in the order of the calls
    of the turn before, the parts the driver kept of the tool responses.
    These batches are what the agent client is called with, turn after turn.
    The parts kept of a response are the worded normalisation (single part
    or sequence flattened, strings wrapped, other truthy entries unchanged,
    falsy entries skipped) for every response other than a single empty
    string. *)
Theorem message_batch_chain :
  forall (World : Type) (env : Env World) (config : Config) (prompt_id : string)
         (jsonlOutput : bool),
    (forall fuel input w,
        let run := runNonInteractive env config prompt_id jsonlOutput fuel input w in
        let tr := trace_of run in
        let chain := expected_batches [user_message [text_part input]] tr in
        batches tr = chain /\
        Forall one_user_message chain /\
        sends tr = map first_parts chain /\
        forall received,
          runNonInteractive (spy env) config prompt_id jsonlOutput fuel input (w, received)
          = spied (received ++ map (fun ps => (ps, prompt_id)) (map first_parts chain))
                  run) /\
    (forall fuel msgs w next,
        result_of (turn env prompt_id jsonlOutput fuel msgs w) = TurnContinue next ->
        next = [user_message
                  (flat_map (fun resp => push_response_parts [] (responseParts resp))
                     (responses (trace_of (turn env prompt_id jsonlOutput fuel msgs w))))]) /\
    (forall acc rp, push_response_parts acc rp = acc ++ push_response_parts [] rp) /\
    (forall rp, rp <> Some (single (PU_string "")) ->
                push_response_parts [] rp = spec_normalize rp).
Proof.
  intros World env config prompt_id jsonlOutput.
  split; [|split; [apply turn_next_batch
                  |split; [apply push_response_parts_app | apply push_response_parts_spec]]].
  intros fuel input w run tr chain.
  pose proof (run_batch_chain env config prompt_id jsonlOutput fuel input w) as Hchain.
  cbv zeta in Hchain. fold run in Hchain. fold tr in Hchain. fold chain in Hchain.
  assert (Hsends : sends tr = map first_parts chain).
  { rewrite <- Hchain. subst tr run. unfold runNonInteractive.
    pose proof (session_loop_sends env config prompt_id jsonlOutput fuel
                  [ {| role := "user"; parts := Some [text_part input] |} ] 0 w) as H.
    destruct (session_loop env config prompt_id jsonlOutput fuel _ 0 w) as [[r w1] out].
    simpl in H. unfold sends, batches, finalizer in *.
    destruct r as [site|e|]; simpl; rewrite ?flat_map_app, ?map_app, ?H;
      try destruct (isTelemetrySdkInitialized env w1); simpl;
      rewrite ?app_nil_r; reflexivity. }
  split; [exact Hchain|]. split; [|split; [exact Hsends|]].
  - rewrite <- Hchain. subst tr run. unfold runNonInteractive.
    pose proof (session_loop_batches env config prompt_id jsonlOutput fuel
                  [user_message [text_part input]] 0 w
                  (ex_intro _ [text_part input] eq_refl)) as H.
    change [ {| role := "user"; parts := Some [text_part input] |} ]
      with [user_message [text_part input]].
    destruct (session_loop env config prompt_id jsonlOutput fuel _ 0 w) as [[r w1] out].
    cbn zeta in H. simpl in H. unfold batches, finalizer in *.
    destruct r as [site|e|]; simpl; rewrite ?flat_map_app;
      try destruct (isTelemetrySdkInitialized env w1); simpl;
      rewrite ?app_nil_r; apply H.
  - intros received. rewrite <- Hsends. apply spy_run.
Qed.

(** A lookup answered by a string, a null and a payload: the second turn
    starts with, and the client receives, the text part and the payload. *)
Lemma message_batch_chain_witness :
  batches (trace_of (runNonInteractive script_env (demo_config (-1)) "p1" false 5 "hello"
                       lookup_world))
  = [[user_message [text_part "hello"]];
     [user_message [text_part "a"; payload_part (JObj [])]]] /\
  push_response_parts [] (Some (single (PU_string "a"))) = [text_part "a"].
Proof.
  pose proof (message_batch_chain Script script_env (demo_config (-1)) "p1" false)
    as (Hrun & _ & _ & Hspec).
  split.
  - rewrite (proj1 (Hrun 5%nat "hello"%string lookup_world)). reflexivity.
  - rewrite (Hspec (Some (single (PU_string "a")))); [reflexivity | discriminate].
Defined.

(* ================================================================== *)
(** ** Cancellation                                                    *)
(* ================================================================== *)

Lemma cancel_last_app a tr P :
  ~ In (ConsoleError CancelNotice) a -> cancel_last tr P -> cancel_last (a ++ tr) P.
Proof.
  intros Ha [[Hn Hp]|(pre & -> & Hn & Hp)].
  - left. split; [|assumption]. intros H. apply in_app_or in H. tauto.
  - right. exists (a ++ pre). rewrite app_assoc. split; [reflexivity|].
    split; [|assumption]. intros H. apply in_app_or in H. tauto.
Qed.

Lemma cancel_last_quiet tr (P : Prop) :
  ~ In (ConsoleError CancelNotice) tr -> ~ P -> cancel_last tr P.
Proof. intros; left; split; assumption. Qed.

Lemma cancel_last_weaken tr (P Q : Prop) :
  (P <-> Q) -> cancel_last tr P -> cancel_last tr Q.
Proof.
  intros HPQ [[Hn Hp]|(pre & -> & Hn & Hp)].
  - left. tauto.
  - right. exists pre. tauto.
Qed.

Lemma cancel_last_split tr P pre post :
  cancel_last tr P ->
  tr = pre ++ ConsoleError CancelNotice :: post ->
  post = [] /\ P.
Proof.
  intros [[Hn _]|(pre0 & -> & Hn & Hp)] Heq.
  - exfalso. apply Hn. rewrite Heq. apply in_or_app. right. left. reflexivity.
  - split; [|assumption]. clear Hp. revert pre Heq.
    induction pre0 as [|x pre0 IH]; intros pre Heq.
    + destruct pre as [|y pre]; simpl in Heq.
      * injection Heq as <-. reflexivity.
      * injection Heq as _ Heq. destruct pre; discriminate.
    + destruct pre as [|y pre]; simpl in Heq.
      * injection Heq as Hx _. exfalso. apply Hn. left. assumption.
      * injection Heq as _ Heq. apply (IH (fun H => Hn (or_intror H)) pre Heq).
Qed.

Section CancelFacts.

Context {World : Type}.
Variable env : Env World.
Variable config : Config.
Variable prompt_id : string.
Variable jsonlOutput : bool.

Lemma on_event_no_cancel event fcs w :
  ~ In (ConsoleError CancelNotice) (trace_of (on_event env jsonlOutput event fcs w)).
Proof.
  unfold on_event, timestamp.
  destruct event as [value|req|kind]; destruct jsonlOutput;
    try destruct (now env w); simpl; intuition discriminate.
Qed.

Lemma tools_no_cancel fcs acc w :
  ~ In (ConsoleError CancelNotice)
       (trace_of (run_tools env prompt_id jsonlOutput fcs acc w)).
Proof.
  pose proof (run_tools_effects env prompt_id jsonlOutput fcs acc w) as H.
  rewrite Forall_forall in H. intros Hin. exact (H _ Hin).
Qed.

Lemma drain_cancel_last fuel : forall fcs w,
  cancel_last (trace_of (drain env jsonlOutput fuel fcs w))
              (result_of (drain env jsonlOutput fuel fcs w) = DrainCancelled).
Proof.
  induction fuel as [|fuel IH]; intros fcs w; simpl.
  - apply cancel_last_quiet; [intros [] | discriminate].
  - destruct (nextEvent env w) as [[event| |e] w1]; simpl.
    + destruct (aborted env w1); simpl.
      * right. exists [NextEvent (Yield event)]. split; [reflexivity|].
        split; [simpl; intuition discriminate | reflexivity].
      * pose proof (on_event_no_cancel event fcs w1) as Hq.
        destruct (on_event env jsonlOutput event fcs w1) as [[fcs1 w2] out].
        specialize (IH fcs1 w2).
        destruct (drain env jsonlOutput fuel fcs1 w2) as [[r w3] out']. simpl in *.
        change (NextEvent (Yield event) :: out ++ out')
          with ((NextEvent (Yield event) :: out) ++ out').
        apply cancel_last_app; [|exact IH].
        simpl. intros [H|H]; [discriminate | contradiction].
    + apply cancel_last_quiet; [simpl; intuition discriminate | discriminate].
    + apply cancel_last_quiet; [simpl; intuition discriminate | discriminate].
Qed.

Lemma turn_cancel_last fuel msgs w :
  cancel_last (trace_of (turn env prompt_id jsonlOutput fuel msgs w))
              (result_of (turn env prompt_id jsonlOutput fuel msgs w) = TurnReturn AtCancel).
Proof.
  unfold turn.
  pose proof (drain_cancel_last fuel [] (openStream env (first_parts msgs) prompt_id w))
    as Hd.
  destruct (drain env jsonlOutput fuel [] _) as [[d w2] out]. simpl in Hd.
  assert (Hsend : forall l, ~ In (ConsoleError CancelNotice) l ->
            ~ In (ConsoleError CancelNotice)
                 (SendMessageStream (first_parts msgs) prompt_id :: l)).
  { intros l Hl [H|H]; [discriminate | contradiction]. }
  assert (Hquiet : d <> DrainCancelled -> ~ In (ConsoleError CancelNotice) out).
  { intros Hne. destruct Hd as [[Hn _]|(pre & _ & _ & Hc)]; [assumption | contradiction]. }
  destruct d as [[|fc rest]| | |]; cbv beta iota.
  - simpl. apply cancel_last_quiet; [|discriminate].
    apply Hsend. intros H. apply in_app_or in H.
    destruct H as [H|[H|[]]]; [|discriminate]. revert H. apply Hquiet. discriminate.
  - pose proof (tools_no_cancel (fc :: rest) [] w2) as Ht.
    destruct (run_tools env prompt_id jsonlOutput (fc :: rest) [] w2) as [[r w3] out'].
    simpl in Ht.
    destruct r; simpl; (apply cancel_last_quiet; [|discriminate]); apply Hsend;
      intros H; apply in_app_or in H; destruct H as [H|H];
      solve [contradiction | revert H; apply Hquiet; discriminate].
  - simpl.
    change (SendMessageStream (first_parts msgs) prompt_id :: out)
      with ([SendMessageStream (first_parts msgs) prompt_id] ++ out).
    apply cancel_last_app; [simpl; intuition discriminate|].
    eapply cancel_last_weaken; [|exact Hd]. split; reflexivity.
  - simpl. apply cancel_last_quiet; [|discriminate]. apply Hsend, Hquiet. discriminate.
  - simpl. apply cancel_last_quiet; [|discriminate]. apply Hsend, Hquiet. discriminate.
Qed.

Lemma session_loop_cancel_last fuel : forall msgs n w,
  cancel_last (trace_of (session_loop env config prompt_id jsonlOutput fuel msgs n w))
              (result_of (session_loop env config prompt_id jsonlOutput fuel msgs n w)
               = Returned AtCancel).
Proof.
  induction fuel as [|fuel IH]; intros msgs n w; simpl.
  - apply cancel_last_quiet; [intros [] | discriminate].
  - destruct ((0 <=? maxSessionTurns config) && (maxSessionTurns config <? n + 1)).
    + simpl. apply cancel_last_quiet; [simpl; intuition discriminate | discriminate].
    + pose proof (turn_cancel_last fuel msgs w) as Ht.
      destruct (turn env prompt_id jsonlOutput fuel msgs w) as [[r w1] out].
      simpl in Ht.
      destruct r as [next|site|e|]; simpl.
      * specialize (IH next (n + 1) w1).
        destruct (session_loop env config prompt_id jsonlOutput fuel next (n + 1) w1)
          as [[r' w2] out']. simpl in *.
        change (BeginTurn (n + 1) msgs :: out ++ out')
          with ((BeginTurn (n + 1) msgs :: out) ++ out').
        apply cancel_last_app; [|exact IH].
        destruct Ht as [[Hn _]|(pre & _ & _ & Hc)]; [|discriminate].
        intros [H|H]; [discriminate | contradiction].
      * change (BeginTurn (n + 1) msgs :: out) with ([BeginTurn (n + 1) msgs] ++ out).
        apply cancel_last_app; [simpl; intuition discriminate|].
        eapply cancel_last_weaken; [|exact Ht].
        split; intros H; injection H as ->; reflexivity.
      * change (BeginTurn (n + 1) msgs :: out) with ([BeginTurn (n + 1) msgs] ++ out).
        apply cancel_last_app; [simpl; intuition discriminate|].
        eapply cancel_last_weaken; [|exact Ht]. split; discriminate.
      * change (BeginTurn (n + 1) msgs :: out) with ([BeginTurn (n + 1) msgs] ++ out).
        apply cancel_last_app; [simpl; intuition discriminate|].
        eapply cancel_last_weaken; [|exact Ht]. split; discriminate.
Qed.

End CancelFacts.

Lemma split_unique {A : Type} (c : A) (a b a' b' : list A) :
  a ++ c :: b = a' ++ c :: b' -> ~ In c a -> ~ In c b -> a = a' /\ b = b'.
Proof.
  revert a'. induction a as [|x a IH]; intros a' Heq Ha Hb.
  - destruct a' as [|y a']; simpl in Heq.
    + injection Heq as ->. split; reflexivity.
    + injection Heq as <- ->. exfalso. apply Hb. apply in_or_app. right. left. reflexivity.
  - destruct a' as [|y a']; simpl in Heq.
    + injection Heq as -> _. exfalso. apply Ha. left. reflexivity.
    + injection Heq as <- Heq.
      destruct (IH a' Heq (fun H => Ha (or_intror H)) Hb) as [-> ->].
      split; reflexivity.
Qed.

(** C8.  When an event arrives and the abort flag is found set, the driver
    prints the cancellation notice and returns: the event is not processed,
    and after the notice the run has nothing but its [finally] block: no
    event is awaited, nothing is written to the output, no tool is executed
    and the agent client is not called. *)
Theorem cancellation_stops_session :
  forall (World : Type) (env : Env World) (config : Config) (prompt_id : string)
         (jsonlOutput : bool),
    (forall fuel fcs w event w1,
        nextEvent env w = (Yield event, w1) ->
        aborted env w1 = true ->
        drain env jsonlOutput (S fuel) fcs w
        = (DrainCancelled, w1, [NextEvent (Yield event); ConsoleError CancelNotice])) /\
    (forall fuel input w pre post,
        let run := runNonInteractive env config prompt_id jsonlOutput fuel input w in
        trace_of run = pre ++ ConsoleError CancelNotice :: post ->
        result_of run = Resolved AtCancel /\
        post = finalizer env (world_of run) /\
        events_received post = [] /\
        stdout_writes post = [] /\
        executions post = [] /\
        sends post = []).
Proof.
  intros World env config prompt_id jsonlOutput. split.
  - intros fuel fcs w event w1 Hnext Hab. cbn [drain]. rewrite Hnext, Hab. reflexivity.
  - intros fuel input w pre post run. subst run. unfold runNonInteractive.
    pose proof (session_loop_cancel_last env config prompt_id jsonlOutput fuel
                  [ {| role := "user"; parts := Some [text_part input] |} ] 0 w) as Hc.
    destruct (session_loop env config prompt_id jsonlOutput fuel _ 0 w) as [[r w1] out].
    simpl in Hc.
    assert (Hfin : ~ In (ConsoleError CancelNotice) (finalizer env w1)).
    { unfold finalizer. destruct (isTelemetrySdkInitialized env w1);
        simpl; intuition discriminate. }
    assert (Hquiet : forall tail,
              ~ In (ConsoleError CancelNotice) out ->
              ~ In (ConsoleError CancelNotice) tail ->
              PatchConsole (debugMode config) :: out ++ tail
                = pre ++ ConsoleError CancelNotice :: post -> False).
    { intros tail Ho Ht Heq.
      assert (Hin : In (ConsoleError CancelNotice)
                       (PatchConsole (debugMode config) :: out ++ tail)).
      { rewrite Heq. apply in_or_app. right. left. reflexivity. }
      destruct Hin as [H|H]; [discriminate|].
      apply in_app_or in H. tauto. }
    destruct Hc as [[Hn Hp]|(pre0 & -> & Hn & Hp)].
    + destruct r as [site|e|]; simpl; intros Heq; exfalso.
      * exact (Hquiet _ Hn Hfin Heq).
      * apply (Hquiet _ Hn) in Heq; [assumption | simpl; intuition discriminate].
      * apply (Hquiet [] Hn); [intros [] | rewrite app_nil_r; exact Heq].
    + subst r. simpl. intros Heq.
      rewrite <- app_assoc in Heq.
      change (PatchConsole (debugMode config)
                :: pre0 ++ [ConsoleError CancelNotice] ++ finalizer env w1)
        with ((PatchConsole (debugMode config) :: pre0)
                ++ ConsoleError CancelNotice :: finalizer env w1) in Heq.
      apply split_unique in Heq; [|intros [H|H]; [discriminate | contradiction]|exact Hfin].
      destruct Heq as [_ <-].
      split; [reflexivity|]. split; [reflexivity|].
      unfold finalizer. destruct (isTelemetrySdkInitialized env w1);
        repeat split; reflexivity.
Qed.

(** The abort flag is found set when the second of three events arrives. *)
Lemma cancellation_stops_session_witness :
  let run := runNonInteractive script_env (demo_config (-1)) "p1" false 10 "hello"
               cancelled_world in
  let w := mkScript [] [(ContentEvent "b", true); (ContentEvent "c", false)]
             false [] 0 false in
  result_of run = Resolved AtCancel /\
  stdout_writes (trace_of run) = [RawText "a"] /\
  events_received (trace_of run) = [ContentEvent "a"; ContentEvent "b"] /\
  trace_of (drain script_env false 3 [] w)
    = [NextEvent (Yield (ContentEvent "b")); ConsoleError CancelNotice].
Proof.
  pose proof (cancellation_stops_session Script script_env (demo_config (-1)) "p1" false)
    as (Hstep & Hrun).
  destruct (Hrun 10%nat "hello" cancelled_world
              [PatchConsole false;
               BeginTurn 1 [user_message [text_part "hello"]];
               SendMessageStream [text_part "hello"] "p1";
               NextEvent (Yield (ContentEvent "a"));
               StdoutWrite (RawText "a");
               NextEvent (Yield (ContentEvent "b"))]
              [CleanupConsole] eq_refl) as (Hr & _).
  split; [exact Hr|]. split; [reflexivity|]. split; [reflexivity|].
  rewrite (Hstep 2%nat []
             (mkScript [] [(ContentEvent "b", true); (ContentEvent "c", false)]
                false [] 0 false)
             (ContentEvent "b")
             (mkScript [] [(ContentEvent "c", false)] true [] 0 false)
             eq_refl eq_refl).
  reflexivity.
Defined.

(* ================================================================== *)
(** ** What reaches the standard output                                *)
(* ================================================================== *)


Lemma stdout_writes_app a b :
  stdout_writes (a ++ b) = stdout_writes a ++ stdout_writes b.
Proof. apply flat_map_app. Qed.



Section OutputFacts.

Context {World : Type}.
Variable env : Env World.
Variable config : Config.
Variable prompt_id : string.
Variable jsonlOutput : bool.







End OutputFacts.




(* ================================================================== *)
(** ** The last line of a JSONL session                                *)
(* ================================================================== *)



(* ================================================================== *)
(** ** Fuel                                                            *)
(* ================================================================== *)

Section FuelFacts.

Context {World : Type}.
Variable env : Env World.
Variable config : Config.
Variable prompt_id : string.
Variable jsonlOutput : bool.

(** More fuel does not change a stream that was drained to its end. *)
Lemma drain_more_fuel fuel : forall k fcs w,
  result_of (drain env jsonlOutput fuel fcs w) <> DrainPending ->
  drain env jsonlOutput (fuel + k) fcs w = drain env jsonlOutput fuel fcs w.
Proof.
  induction fuel as [|fuel IH]; intros k fcs w; simpl.
  - intros H. contradiction H. reflexivity.
  - destruct (nextEvent env w) as [[event| |e] w1]; simpl; try reflexivity.
    destruct (aborted env w1); simpl; [reflexivity|].
    destruct (on_event env jsonlOutput event fcs w1) as [[fcs1 w2] out].
    specialize (IH k fcs1 w2).
    destruct (drain env jsonlOutput fuel fcs1 w2) as [[r w3] out']. simpl in *.
    intros H. rewrite (IH H). reflexivity.
Qed.

(** X6.  With a turn limit [L >= 0] and response streams that end within
    [bound] events, the session comes to its end, by a return or by the exit
    of the [catch] block: fuel [bound + L + 1] is enough. *)
Lemma limited_session_finishes (bound : nat) :
  0 <= maxSessionTurns config ->
  (forall fcs w, result_of (drain env jsonlOutput bound fcs w) <> DrainPending) ->
  forall input w,
    result_of (runNonInteractive env config prompt_id jsonlOutput
                 (S (bound + Z.to_nat (maxSessionTurns config))) input w)
    <> Unfinished.
Proof.
  intros HL Hdrain input w.
  assert (Hloop : forall m msgs n w,
            maxSessionTurns config - n <= Z.of_nat m ->
            result_of (session_loop env config prompt_id jsonlOutput
                         (S (bound + m)) msgs n w) <> Pending).
  { induction m as [|m IH]; intros msgs n w0 Hm; cbn [session_loop].
    - replace ((0 <=? maxSessionTurns config) && (maxSessionTurns config <? n + 1))
        with true; [simpl; discriminate|].
      symmetry. apply andb_true_iff. split; [apply Z.leb_le | apply Z.ltb_lt]; lia.
    - destruct ((0 <=? maxSessionTurns config) && (maxSessionTurns config <? n + 1));
        [simpl; discriminate|].
      unfold turn. rewrite drain_more_fuel by apply Hdrain.
      specialize (Hdrain [] (openStream env (first_parts msgs) prompt_id w0)).
      destruct (drain env jsonlOutput bound [] _) as [[d w2] out]. simpl in Hdrain.
      destruct d as [[|fc rest]| | |]; cbv beta iota;
        try (simpl; discriminate); try contradiction.
      destruct (run_tools env prompt_id jsonlOutput (fc :: rest) [] w2)
        as [[[e|ps] w3] out']; cbv beta iota; [simpl; discriminate|].
      replace (bound + S m)%nat with (S (bound + m)) by lia.
      specialize (IH [user_message ps] (n + 1) w3).
      destruct (session_loop env config prompt_id jsonlOutput (S (bound + m))
                  [user_message ps] (n + 1) w3) as [[r' w4] out''].
      simpl in *. apply IH. lia. }
  unfold runNonInteractive.
  specialize (Hloop (Z.to_nat (maxSessionTurns config))
                [ {| role := "user"; parts := Some [text_part input] |} ] 0 w).
  destruct (session_loop env config prompt_id jsonlOutput _ _ 0 w) as [[r w1] out].
  simpl in Hloop. destruct r; simpl; try discriminate.
  exfalso. apply Hloop; [lia | reflexivity].
Qed.

End FuelFacts.

(* ================================================================== *)
(** ** The session as a whole                                          *)
(* ================================================================== *)

Lemma turn_effect_session jsonl e : turn_effect jsonl e -> session_effect jsonl e.
Proof. destruct e as [| | | |[]|[]| | | |]; simpl; tauto. Qed.

Section SessionFacts.

Context {World : Type}.
Variable env : Env World.
Variable config : Config.
Variable prompt_id : string.
Variable jsonlOutput : bool.

Lemma session_loop_effects fuel : forall msgs n w,
  Forall (session_effect jsonlOutput)
         (trace_of (session_loop env config prompt_id jsonlOutput fuel msgs n w)).
Proof.
  induction fuel as [|fuel IH]; intros msgs n w; simpl; [constructor|].
  destruct ((0 <=? maxSessionTurns config) && (maxSessionTurns config <? n + 1));
    [repeat constructor|].
  destruct (turn_shape env prompt_id jsonlOutput fuel msgs w) as (body & Hb & Hf).
  assert (Hf' : Forall (session_effect jsonlOutput) body)
    by (eapply Forall_impl; [apply turn_effect_session | exact Hf]).
  destruct (turn env prompt_id jsonlOutput fuel msgs w) as [[r w1] out].
  simpl in Hb. subst out.
  destruct r as [next|site|e|]; simpl; try (repeat constructor; assumption).
  specialize (IH next (n + 1) w1).
  destruct (session_loop env config prompt_id jsonlOutput fuel next (n + 1) w1)
    as [[r' w2] out']. simpl in *.
  constructor; [exact I|]. constructor; [exact I|].
  apply Forall_app; split; assumption.
Qed.

(** The turn counters of the turns of a loop that starts at [n]. *)
Lemma session_loop_turn_numbers fuel : forall msgs n w,
  let tr := trace_of (session_loop env config prompt_id jsonlOutput fuel msgs n w) in
  turn_numbers tr = map (fun k => n + Z.of_nat k) (seq 1 (turns tr)).
Proof.
  induction fuel as [|fuel IH]; intros msgs n w; cbn zeta; simpl; [reflexivity|].
  destruct ((0 <=? maxSessionTurns config) && (maxSessionTurns config <? n + 1));
    [reflexivity|].
  destruct (turn_shape env prompt_id jsonlOutput fuel msgs w) as (body & Hb & Hf).
  pose proof (turn_body_sends jsonlOutput body Hf) as Hs.
  assert (Hn : turn_numbers body = []).
  { apply (flat_map_nil_on _ _ _ Hf).
    intros [| | | |[]|[]| | | |]; simpl; tauto. }
  destruct (turn env prompt_id jsonlOutput fuel msgs w) as [[r w1] out].
  simpl in Hb. subst out. unfold turns, sends, turn_numbers in *.
  destruct r as [next|site|e|]; simpl; rewrite ?flat_map_app, ?Hs, ?Hn; simpl;
    try reflexivity.
  specialize (IH next (n + 1) w1).
  destruct (session_loop env config prompt_id jsonlOutput fuel next (n + 1) w1)
    as [[r' w2] out']. cbn zeta in IH. simpl in *.
  rewrite !flat_map_app, Hs, Hn. simpl. rewrite IH. f_equal.
  rewrite <- (seq_shift _ 1), map_map. apply map_ext. intros k. lia.
Qed.

Lemma on_event_only_writes event fcs w :
  Forall (fun x => exists o, x = StdoutWrite o)
         (trace_of (on_event env jsonlOutput event fcs w)).
Proof.
  unfold on_event, timestamp.
  destruct event as [value|req|kind]; destruct jsonlOutput;
    try destruct (now env w); simpl; repeat constructor; eexists; reflexivity.
Qed.

(** A throw ends the stream, and nothing but a throw of the stream makes
    the drain fail. *)
Lemma drain_thrown fuel : forall fcs w,
  let d := drain env jsonlOutput fuel fcs w in
  (forall e, result_of d = DrainRejected e ->
             exists pre, trace_of d = pre ++ [NextEvent (StreamRejected e)]) /\
  (forall e x, thrown e x -> In x (trace_of d) -> result_of d = DrainRejected e).
Proof.
  induction fuel as [|fuel IH]; intros fcs w; cbn zeta; simpl.
  - split; [discriminate | intros e x _ []].
  - destruct (nextEvent env w) as [[event| |e0] w1]; simpl.
    + destruct (aborted env w1); simpl.
      * split; [discriminate|].
        intros e x [->|[r ->]] [H|[H|[]]]; discriminate.
      * pose proof (on_event_only_writes event fcs w1) as Hq.
        destruct (on_event env jsonlOutput event fcs w1) as [[fcs1 w2] out].
        specialize (IH fcs1 w2).
        destruct (drain env jsonlOutput fuel fcs1 w2) as [[r w3] out'].
        cbn zeta in IH. simpl in *. destruct IH as [IH1 IH2]. split.
        -- intros e Hr. destruct (IH1 e Hr) as [pre ->].
           exists (NextEvent (Yield event) :: out ++ pre).
           simpl. rewrite <- app_assoc. reflexivity.
        -- intros e x Hx [H|H]; [destruct Hx as [->|[r0 ->]]; discriminate|].
           apply in_app_or in H. destruct H as [H|H]; [|exact (IH2 e x Hx H)].
           rewrite Forall_forall in Hq. destruct (Hq x H) as [o ->].
           destruct Hx as [Hx|[r0 Hx]]; discriminate.
    + split; [discriminate|].
      intros e x [->|[r ->]] [H|[]]; discriminate.
    + split.
      * intros e H. injection H as ->. exists []. reflexivity.
      * intros e x [->|[r ->]] [H|[]]; [|discriminate].
        injection H as ->. reflexivity.
Qed.

Lemma run_tools_thrown fcs : forall acc w,
  let t := run_tools env prompt_id jsonlOutput fcs acc w in
  (forall e, result_of t = inl e ->
             exists pre r, trace_of t = pre ++ [ExecuteToolCall r (ToolRejected e)]) /\
  (forall e x, thrown e x -> In x (trace_of t) -> result_of t = inl e).
Proof.
  induction fcs as [|fc rest IH]; intros acc w; cbn zeta.
  - simpl. split; [discriminate | intros e x _ []].
  - cbn [run_tools].
    destruct (executeToolCall env
                (request_info prompt_id (fst (resolve_callId env fc w)) fc)
                (snd (resolve_callId env fc w))) as [[resp|e0] w2] eqn:He.
    + rewrite (run_tool_resolved env prompt_id jsonlOutput fc acc w resp w2 He).
      specialize (IH (push_response_parts acc (responseParts resp))
                     (if jsonlOutput then snd (now env w2) else w2)).
      destruct (run_tools env prompt_id jsonlOutput rest _ _) as [[r' w3] out'].
      cbn zeta in IH. simpl in IH. destruct IH as [IH1 IH2]. simpl. split.
      * intros e Hr. destruct (IH1 e Hr) as (pre & r & ->).
        exists (ExecuteToolCall
                  (request_info prompt_id (fst (resolve_callId env fc w)) fc)
                  (ToolResolved resp)
                  :: (result_writes env jsonlOutput (fst (resolve_callId env fc w)) fc resp w2
                      ++ error_writes fc resp) ++ pre), r.
        simpl. f_equal. apply app_assoc.
      * intros e x Hx [H|H]; [destruct Hx as [->|[r0 ->]]; discriminate|].
        apply in_app_or in H. destruct H as [H|H]; [|exact (IH2 e x Hx H)].
        exfalso. unfold result_writes, error_writes in H.
        destruct jsonlOutput; destruct (error resp); simpl in H;
          destruct Hx as [->|[r0 ->]]; intuition discriminate.
    + rewrite (run_tool_rejected env prompt_id jsonlOutput fc acc w e0 w2 He).
      simpl. split.
      * intros e H. injection H as ->.
        exists [], (request_info prompt_id (fst (resolve_callId env fc w)) fc).
        reflexivity.
      * intros e x [->|[r ->]] [H|[]]; [discriminate|].
        injection H as _ ->. reflexivity.
Qed.

Lemma turn_thrown fuel msgs w :
  let t := turn env prompt_id jsonlOutput fuel msgs w in
  (forall e, result_of t = TurnRejected e ->
             exists pre x, trace_of t = pre ++ [x] /\ thrown e x) /\
  (forall e x, thrown e x -> In x (trace_of t) -> result_of t = TurnRejected e).
Proof.
  cbn zeta. unfold turn.
  pose proof (drain_thrown fuel [] (openStream env (first_parts msgs) prompt_id w))
    as [Hd1 Hd2].
  destruct (drain env jsonlOutput fuel [] _) as [[d w2] out]. simpl in Hd1, Hd2.
  assert (Hsend : forall e x, thrown e x ->
            x <> SendMessageStream (first_parts msgs) prompt_id)
    by (intros e x [->|[r ->]]; discriminate).
  destruct d as [[|fc rest]| | |]; cbv beta iota.
  - simpl. split; [discriminate|].
    intros e x Hx [H|H]; [symmetry in H; destruct (Hsend e x Hx H)|].
    apply in_app_or in H. destruct H as [H|[H|[]]].
    + specialize (Hd2 e x Hx H). discriminate.
    + destruct Hx as [->|[r ->]]; discriminate.
  - pose proof (run_tools_thrown (fc :: rest) [] w2) as [Ht1 Ht2].
    destruct (run_tools env prompt_id jsonlOutput (fc :: rest) [] w2)
      as [[[e0|ps] w3] out']; simpl in Ht1, Ht2; simpl; split.
    + intros e H. injection H as <-. destruct (Ht1 e0 eq_refl) as (pre & r & ->).
      exists (SendMessageStream (first_parts msgs) prompt_id :: out ++ pre),
             (ExecuteToolCall r (ToolRejected e0)).
      split; [simpl; rewrite <- app_assoc; reflexivity | right; exists r; reflexivity].
    + intros e x Hx [H|H]; [symmetry in H; destruct (Hsend e x Hx H)|].
      apply in_app_or in H. destruct H as [H|H].
      * specialize (Hd2 e x Hx H). discriminate.
      * specialize (Ht2 e x Hx H). injection Ht2 as ->. reflexivity.
    + discriminate.
    + intros e x Hx [H|H]; [symmetry in H; destruct (Hsend e x Hx H)|].
      apply in_app_or in H. destruct H as [H|H].
      * specialize (Hd2 e x Hx H). discriminate.
      * specialize (Ht2 e x Hx H). discriminate.
  - simpl. split; [discriminate|].
    intros e x Hx [H|H]; [symmetry in H; destruct (Hsend e x Hx H)|].
    specialize (Hd2 e x Hx H). discriminate.
  - simpl. split.
    + intros e0 H. injection H as <-. destruct (Hd1 e eq_refl) as [pre ->].
      exists (SendMessageStream (first_parts msgs) prompt_id :: pre),
             (NextEvent (StreamRejected e)).
      split; [reflexivity | left; reflexivity].
    + intros e0 x Hx [H|H]; [symmetry in H; destruct (Hsend e0 x Hx H)|].
      specialize (Hd2 e0 x Hx H). injection Hd2 as ->. reflexivity.
  - simpl. split; [discriminate|].
    intros e x Hx [H|H]; [symmetry in H; destruct (Hsend e x Hx H)|].
    specialize (Hd2 e x Hx H). discriminate.
Qed.

Lemma session_loop_thrown fuel : forall msgs n w,
  let l := session_loop env config prompt_id jsonlOutput fuel msgs n w in
  (forall e, result_of l = Rejected e ->
             exists pre x, trace_of l = pre ++ [x] /\ thrown e x) /\
  (forall e x, thrown e x -> In x (trace_of l) -> result_of l = Rejected e).
Proof.
  induction fuel as [|fuel IH]; intros msgs n w; cbn zeta; simpl.
  - split; [discriminate | intros e x _ []].
  - destruct ((0 <=? maxSessionTurns config) && (maxSessionTurns config <? n + 1)).
    + simpl. split; [discriminate|].
      intros e x [->|[r ->]] [H|[]]; discriminate.
    + pose proof (turn_thrown fuel msgs w) as [Ht1 Ht2].
      destruct (turn env prompt_id jsonlOutput fuel msgs w) as [[r w1] out].
      simpl in Ht1, Ht2.
      assert (Hbegin : forall e x, thrown e x -> BeginTurn (n + 1) msgs <> x)
        by (intros e x [->|[r0 ->]]; discriminate).
      destruct r as [next|site|e0|]; simpl.
      * specialize (IH next (n + 1) w1).
        destruct (session_loop env config prompt_id jsonlOutput fuel next (n + 1) w1)
          as [[r' w2] out']. cbn zeta in IH. simpl in *. destruct IH as [IH1 IH2].
        split.
        -- intros e Hr. destruct (IH1 e Hr) as (pre & x & -> & Hx).
           exists (BeginTurn (n + 1) msgs :: out ++ pre), x.
           split; [simpl; rewrite <- app_assoc; reflexivity | exact Hx].
        -- intros e x Hx [H|H]; [destruct (Hbegin e x Hx H)|].
           apply in_app_or in H. destruct H as [H|H]; [|exact (IH2 e x Hx H)].
           specialize (Ht2 e x Hx H). discriminate.
      * split; [discriminate|].
        intros e x Hx [H|H]; [destruct (Hbegin e x Hx H)|].
        specialize (Ht2 e x Hx H). discriminate.
      * split.
        -- intros e H. injection H as <-. destruct (Ht1 e0 eq_refl) as (pre & x & -> & Hx).
           exists (BeginTurn (n + 1) msgs :: pre), x. split; [reflexivity | exact Hx].
        -- intros e x Hx [H|H]; [destruct (Hbegin e x Hx H)|].
           specialize (Ht2 e x Hx H). injection Ht2 as ->. reflexivity.
      * split; [discriminate|].
        intros e x Hx [H|H]; [destruct (Hbegin e x Hx H)|].
        specialize (Ht2 e x Hx H). discriminate.
Qed.

(** The final line feed is written by the return after a turn without tool
    calls, and by nothing else. *)
Lemma session_loop_final_newline fuel : forall msgs n w,
  let l := session_loop env config prompt_id jsonlOutput fuel msgs n w in
  In (StdoutWrite FinalNewline) (trace_of l) -> result_of l = Returned AtNoToolCalls.
Proof.
  induction fuel as [|fuel IH]; intros msgs n w; cbn zeta; simpl; [intros []|].
  destruct ((0 <=? maxSessionTurns config) && (maxSessionTurns config <? n + 1)).
  - simpl. intros [H|[]]. discriminate.
  - assert (Ht : In (StdoutWrite FinalNewline)
                    (trace_of (turn env prompt_id jsonlOutput fuel msgs w)) ->
                 result_of (turn env prompt_id jsonlOutput fuel msgs w)
                 = TurnReturn AtNoToolCalls).
    { unfold turn.
      pose proof (drain_effects env jsonlOutput fuel []
                    (openStream env (first_parts msgs) prompt_id w)) as Hd.
      destruct (drain env jsonlOutput fuel [] _) as [[d w2] out]. simpl in Hd.
      rewrite Forall_forall in Hd.
      destruct d as [[|fc rest]| | |]; cbv beta iota;
        try (simpl; intros [H|H]; [discriminate | destruct (Hd _ H)]).
      - reflexivity.
      - pose proof (run_tools_effects env prompt_id jsonlOutput (fc :: rest) [] w2) as Hq.
        destruct (run_tools env prompt_id jsonlOutput (fc :: rest) [] w2)
          as [[r w3] out']. simpl in Hq. rewrite Forall_forall in Hq.
        destruct r; simpl; (intros [H|H]; [discriminate|]); apply in_app_or in H;
          destruct H as [H|H]; solve [destruct (Hd _ H) | destruct (Hq _ H)]. }
    destruct (turn env prompt_id jsonlOutput fuel msgs w) as [[r w1] out].
    simpl in Ht.
    destruct r as [next|site|e|]; simpl;
      try (intros [H|H]; [discriminate | specialize (Ht H); congruence]).
    specialize (IH next (n + 1) w1).
    destruct (session_loop env config prompt_id jsonlOutput fuel next (n + 1) w1)
      as [[r' w2] out']. cbn zeta in IH. simpl in *.
    intros [H|H]; [discriminate|]. apply in_app_or in H.
    destruct H as [H|H]; [specialize (Ht H); discriminate | exact (IH H)].
Qed.

End SessionFacts.

Lemma count_newlines_app (a b : string) :
  count_newlines (a ++ b) = (count_newlines a + count_newlines b)%nat.
Proof.
  induction a as [|c a IH]; simpl; [reflexivity|].
  destruct (Ascii.eqb c "010"); rewrite IH; reflexivity.
Qed.

Lemma count_newlines_one_line (s : string) :
  has_newline s = false -> count_newlines s = O.
Proof.
  induction s as [|c s IH]; simpl; [reflexivity|].
  destruct (Ascii.eqb c "010"); simpl; [discriminate | exact IH].
Qed.

Lemma session_effect_quiet jsonl body :
  Forall (session_effect jsonl) body ->
  ~ In CleanupConsole body /\ ~ In ShutdownTelemetry body /\
  (forall code, ~ In (ProcessExit code) body) /\
  (forall d, ~ In (PatchConsole d) body) /\
  (forall text, ~ In (ConsoleError (ApiErrorNotice text)) body).
Proof.
  intros H. rewrite Forall_forall in H.
  repeat split; repeat intro;
    match goal with Hin : In _ body |- _ => exact (H _ Hin) end.
Qed.

(** X1.  A throw is fatal.  When the response stream or the tool executor
    throws, the [catch] block ends the run: the formatted error is printed
    on the diagnostic stream and the process is exited with status 1, right
    after the throw; the [finally] block is not reached, so the console is
    not restored and telemetry is not shut down.  (The exit of the listener
    for a closed output pipe is no part of the model; no step of it can fall
    between the throw and the exit.) *)
Theorem fatal_error_exits :
  forall (World : Type) (env : Env World) (config : Config) (prompt_id : string)
         (jsonlOutput : bool) (fuel : nat) (input : string) (w : World)
         (e : Exn) (x : Effect),
    let run := runNonInteractive env config prompt_id jsonlOutput fuel input w in
    thrown e x -> In x (trace_of run) ->
    result_of run = Exited 1 /\
    ~ In CleanupConsole (trace_of run) /\
    ~ In ShutdownTelemetry (trace_of run) /\
    exists pre last,
      thrown e last /\
      trace_of run
      = pre ++ [last;
                ConsoleError (ApiErrorNotice
                  (parseAndFormatApiError env e (authType config)));
                ProcessExit 1].
Proof.
  intros World env config prompt_id jsonlOutput fuel input w e x run Hx Hin.
  subst run. revert Hin. unfold runNonInteractive.
  pose proof (session_loop_thrown env config prompt_id jsonlOutput fuel
                [ {| role := "user"; parts := Some [text_part input] |} ] 0 w)
    as [H1 H2].
  pose proof (session_loop_effects env config prompt_id jsonlOutput fuel
                [ {| role := "user"; parts := Some [text_part input] |} ] 0 w) as Hq.
  destruct (session_loop env config prompt_id jsonlOutput fuel _ 0 w) as [[r w1] out].
  simpl in H1, H2, Hq.
  destruct (session_effect_quiet jsonlOutput out Hq) as (Hc & Hs & _).
  assert (Hpatch : PatchConsole (debugMode config) <> x)
    by (destruct Hx as [->|[r0 ->]]; discriminate).
  assert (Hfin : ~ In x (finalizer env w1)).
  { unfold finalizer.
    destruct (isTelemetrySdkInitialized env w1); destruct Hx as [->|[r0 ->]];
      simpl; intuition discriminate. }
  assert (Hout : In x (PatchConsole (debugMode config) :: out) ->
                 r = Rejected e).
  { intros [H|H]; [destruct (Hpatch H) | exact (H2 e x Hx H)]. }
  destruct r as [site|e0|]; simpl; intros Hin.
  - destruct Hin as [H|H]; [destruct (Hpatch H)|].
    apply in_app_or in H. destruct H as [H|H];
      [specialize (H2 e x Hx H); discriminate | destruct (Hfin H)].
  - assert (He : e0 = e).
    { destruct Hin as [H|H]; [destruct (Hpatch H)|].
      apply in_app_or in H. destruct H as [H|H].
      - specialize (H2 e x Hx H). congruence.
      - destruct Hx as [->|[r0 ->]]; destruct H as [H|[H|[]]]; discriminate. }
    subst e0. split; [reflexivity|]. split; [|split].
    + intros [H|H]; [discriminate|]. apply in_app_or in H.
      destruct H as [H|[H|[H|[]]]]; [contradiction | discriminate | discriminate].
    + intros [H|H]; [discriminate|]. apply in_app_or in H.
      destruct H as [H|[H|[H|[]]]]; [contradiction | discriminate | discriminate].
    + destruct (H1 e eq_refl) as (pre & last & -> & Hlast).
      exists (PatchConsole (debugMode config) :: pre), last.
      split; [exact Hlast|]. simpl. rewrite <- app_assoc. reflexivity.
  - specialize (Hout Hin). discriminate.
Qed.

(** The stream that breaks after one fragment. *)
Lemma fatal_error_exits_witness :
  let run := runNonInteractive broken_stream_env (demo_config (-1)) "p1" false 10
               "hello" false in
  result_of run = Exited 1 /\
  diagnostics (trace_of run) = [ApiErrorNotice "[API Error: socket hang up]"] /\
  ~ In CleanupConsole (trace_of run).
Proof.
  destruct (fatal_error_exits bool broken_stream_env (demo_config (-1)) "p1" false
              10%nat "hello" false "socket hang up"
              (NextEvent (StreamRejected "socket hang up")))
    as (Hr & Hc & _).
  - left. reflexivity.
  - vm_compute. tauto.
  - split; [exact Hr|]. split; [reflexivity | exact Hc].
Defined.

(** X2.  The console is patched first and only once.  A run that returns,
    at whichever [return], ends with the [finally] block: the console is
    restored, then telemetry is shut down if and only if it is initialised;
    neither happens earlier, and the process is not exited. *)
Theorem console_lifecycle :
  forall (World : Type) (env : Env World) (config : Config) (prompt_id : string)
         (jsonlOutput : bool) (fuel : nat) (input : string) (w : World),
    let run := runNonInteractive env config prompt_id jsonlOutput fuel input w in
    (exists rest,
        trace_of run = PatchConsole (debugMode config) :: rest /\
        forall d, ~ In (PatchConsole d) rest) /\
    (forall site, result_of run = Resolved site ->
       exists body,
         trace_of run
         = PatchConsole (debugMode config) :: body ++ CleanupConsole ::
             (if isTelemetrySdkInitialized env (world_of run)
              then [ShutdownTelemetry] else []) /\
         ~ In CleanupConsole body /\
         ~ In ShutdownTelemetry body /\
         forall code, ~ In (ProcessExit code) (trace_of run)).
Proof.
  intros World env config prompt_id jsonlOutput fuel input w run. subst run.
  unfold runNonInteractive.
  pose proof (session_loop_effects env config prompt_id jsonlOutput fuel
                [ {| role := "user"; parts := Some [text_part input] |} ] 0 w) as Hq.
  destruct (session_loop env config prompt_id jsonlOutput fuel _ 0 w) as [[r w1] out].
  simpl in Hq.
  destruct (session_effect_quiet jsonlOutput out Hq) as (Hc & Hs & He & Hp & _).
  split.
  - destruct r as [site|e|]; simpl; eexists; (split; [reflexivity|]); intros d H;
      try (apply in_app_or in H; destruct H as [H|H]); try (exact (Hp d H)).
    + unfold finalizer in H. destruct (isTelemetrySdkInitialized env w1);
        simpl in H; intuition discriminate.
    + simpl in H. intuition discriminate.
  - destruct r as [site0|e|]; simpl; try discriminate.
    intros site _. exists out. split; [reflexivity|].
    split; [exact Hc|]. split; [exact Hs|].
    intros code [H|H]; [discriminate|]. apply in_app_or in H.
    destruct H as [H|H]; [exact (He code H)|].
    unfold finalizer in H. destruct (isTelemetrySdkInitialized env w1);
      simpl in H; intuition discriminate.
Qed.

(** The session of the busy world, stopped by a limit of two turns. *)
Lemma console_lifecycle_witness :
  let run := runNonInteractive busy_env (demo_config 2) "p1" false 10 "hello" false in
  exists body,
    trace_of run = PatchConsole false :: body ++ [CleanupConsole; ShutdownTelemetry] /\
    ~ In CleanupConsole body.
Proof.
  destruct (proj2 (console_lifecycle bool busy_env (demo_config 2) "p1" false
                     10%nat "hello" false) AtMaxTurns eq_refl)
    as (body & Htr & Hc & _).
  exists body. split; [exact Htr | exact Hc].
Defined.

(** X3.  What is written to the standard output follows the mode: raw
    fragments only in plain mode, records only in JSONL mode, and the final
    line feed in either.  In JSONL mode every write is exactly one line, so
    the output has as many line feeds as there were writes. *)
Theorem output_follows_mode :
  forall (World : Type) (env : Env World) (config : Config) (prompt_id : string)
         (fuel : nat) (input : string) (w : World),
    (forall jsonlOutput,
        Forall (write_of_mode jsonlOutput)
               (stdout_writes (trace_of
                  (runNonInteractive env config prompt_id jsonlOutput fuel input w)))) /\
    records (trace_of (runNonInteractive env config prompt_id false fuel input w)) = [] /\
    (let tr := trace_of (runNonInteractive env config prompt_id true fuel input w) in
     count_newlines (stdout_text tr) = List.length (stdout_writes tr)).
Proof.
  intros World env config prompt_id fuel input w.
  assert (Hmode : forall jsonlOutput,
            Forall (write_of_mode jsonlOutput)
              (stdout_writes (trace_of
                 (runNonInteractive env config prompt_id jsonlOutput fuel input w)))).
  { intros jsonlOutput. unfold runNonInteractive.
    pose proof (session_loop_effects env config prompt_id jsonlOutput fuel
                  [ {| role := "user"; parts := Some [text_part input] |} ] 0 w) as Hq.
    destruct (session_loop env config prompt_id jsonlOutput fuel _ 0 w) as [[r w1] out].
    simpl in Hq.
    assert (Hout : Forall (write_of_mode jsonlOutput) (stdout_writes out)).
    { clear - Hq. induction Hq as [|e l He _ IH]; [constructor|].
      unfold stdout_writes in *. simpl.
      destruct e as [| | | |[]|[]| | | |]; simpl in *; try exact IH;
        constructor; assumption || exact I. }
    unfold finalizer.
    destruct r as [site|e|]; simpl; rewrite ?stdout_writes_app;
      try destruct (isTelemetrySdkInitialized env w1); simpl;
      rewrite ?app_nil_r; exact Hout. }
  split; [exact Hmode|]. split.
  - specialize (Hmode false). unfold records, stdout_writes in *.
    induction (trace_of (runNonInteractive env config prompt_id false fuel input w))
      as [|e l IH]; [reflexivity|].
    simpl in *. destruct e as [| | | |[]| | | | |]; simpl in *;
      try (apply IH; assumption);
      inversion Hmode; subst; try discriminate; apply IH; assumption.
  - cbn zeta. specialize (Hmode true). unfold stdout_text.
    induction Hmode as [|o l Ho _ IH]; [reflexivity|].
    simpl. unfold join in *. simpl. rewrite count_newlines_app, IH.
    destruct o as [fragment|record|]; simpl in Ho; [discriminate| |reflexivity].
    simpl. rewrite count_newlines_app, count_newlines_one_line
      by apply JsonFacts.stringify_one_line.
    reflexivity.
Qed.

(** X4.  The final line feed is written by the return after a turn without
    tool calls and by nothing else: a session that is stopped by the turn
    limit, by cancellation or by an error has not written it. *)
Theorem final_newline_only_after_last_turn :
  forall (World : Type) (env : Env World) (config : Config) (prompt_id : string)
         (jsonlOutput : bool) (fuel : nat) (input : string) (w : World),
    let run := runNonInteractive env config prompt_id jsonlOutput fuel input w in
    result_of run <> Resolved AtNoToolCalls ->
    ~ In FinalNewline (stdout_writes (trace_of run)).
Proof.
  intros World env config prompt_id jsonlOutput fuel input w run Hr Hin.
  apply Hr. clear Hr. subst run. unfold runNonInteractive in *.
  pose proof (session_loop_final_newline env config prompt_id jsonlOutput fuel
                [ {| role := "user"; parts := Some [text_part input] |} ] 0 w) as Hf.
  destruct (session_loop env config prompt_id jsonlOutput fuel _ 0 w) as [[r w1] out].
  cbn zeta in Hf. simpl in Hf.
  assert (Hw : forall tr, In FinalNewline (stdout_writes tr) ->
                          In (StdoutWrite FinalNewline) tr).
  { intros tr H. unfold stdout_writes in H. apply in_flat_map in H.
    destruct H as (e & He & Ho). destruct e; simpl in Ho; try contradiction.
    destruct Ho as [->|[]]. exact He. }
  assert (Hloop : In (StdoutWrite FinalNewline) out -> r = Returned AtNoToolCalls)
    by exact Hf.
  apply Hw in Hin.
  destruct r as [site|e|]; simpl in *.
  - destruct Hin as [H|H]; [discriminate|]. apply in_app_or in H.
    destruct H as [H|H]; [specialize (Hloop H); congruence|].
    unfold finalizer in H. destruct (isTelemetrySdkInitialized env w1);
      simpl in H; intuition discriminate.
  - destruct Hin as [H|H]; [discriminate|]. apply in_app_or in H.
    destruct H as [H|H]; [specialize (Hloop H); discriminate|].
    simpl in H. intuition discriminate.
  - destruct Hin as [H|H]; [discriminate | specialize (Hloop H); discriminate].
Qed.

(** The scripted session stopped after one turn has no final line feed. *)
Lemma final_newline_only_after_last_turn_witness :
  let run := runNonInteractive script_env (demo_config 1) "p1" false 10 "hello"
               demo_world in
  stdout_text (trace_of run) = "hi"%string /\
  ~ In FinalNewline (stdout_writes (trace_of run)).
Proof.
  split; [reflexivity|].
  apply (final_newline_only_after_last_turn Script script_env (demo_config 1) "p1"
           false 10%nat "hello" demo_world).
  discriminate.
Defined.

(** X5.  The turn counter is raised by one at every pass through the loop:
    the turns of a run are numbered 1, 2, 3 and so on, without gap. *)
Theorem turn_counter_counts_turns :
  forall (World : Type) (env : Env World) (config : Config) (prompt_id : string)
         (jsonlOutput : bool) (fuel : nat) (input : string) (w : World),
    let tr := trace_of (runNonInteractive env config prompt_id jsonlOutput fuel input w) in
    turn_numbers tr = map Z.of_nat (seq 1 (turns tr)).
Proof.
  intros World env config prompt_id jsonlOutput fuel input w. cbn zeta.
  unfold runNonInteractive.
  pose proof (session_loop_turn_numbers env config prompt_id jsonlOutput fuel
                [ {| role := "user"; parts := Some [text_part input] |} ] 0 w) as H.
  destruct (session_loop env config prompt_id jsonlOutput fuel _ 0 w) as [[r w1] out].
  cbn zeta in H. simpl in H.
  assert (Hfin : turn_numbers (finalizer env w1) = [] /\ sends (finalizer env w1) = []).
  { unfold finalizer. destruct (isTelemetrySdkInitialized env w1); split; reflexivity. }
  destruct Hfin as [Hf1 Hf2].
  unfold turns, turn_numbers, sends in *.
  destruct r as [site|e|]; simpl; rewrite ?flat_map_app, ?Hf1, ?Hf2; simpl;
    rewrite ?app_nil_r, H; apply map_ext; intros k; reflexivity.
Qed.

(** The busy world under a limit of two turns: its streams end within two
    events, so fuel five is enough. *)
Lemma limited_session_finishes_witness :
  result_of (runNonInteractive busy_env (demo_config 2) "p1" true 5 "hello" false)
  <> Unfinished.
Proof.
  apply (limited_session_finishes busy_env (demo_config 2) "p1" true 2%nat).
  - simpl. lia.
  - intros fcs w. destruct w; simpl; discriminate.
Defined.

(* ================================================================== *)
(** ** Order inside a turn                                             *)
(* ================================================================== *)

Section OrderFacts.

Context {World : Type}.
Variable env : Env World.
Variable config : Config.
Variable prompt_id : string.
Variable jsonlOutput : bool.

Lemma drain_done_last fuel : forall fcs w fcs',
  result_of (drain env jsonlOutput fuel fcs w) = StreamDone fcs' ->
  exists pre, trace_of (drain env jsonlOutput fuel fcs w) = pre ++ [NextEvent Done].
Proof.
  induction fuel as [|fuel IH]; intros fcs w fcs'; simpl; [discriminate|].
  destruct (nextEvent env w) as [[event| |e] w1]; simpl.
  - destruct (aborted env w1); simpl; [discriminate|].
    destruct (on_event env jsonlOutput event fcs w1) as [[fcs1 w2] out].
    specialize (IH fcs1 w2 fcs').
    destruct (drain env jsonlOutput fuel fcs1 w2) as [[r w3] out']. simpl in *.
    intros Hr. destruct (IH Hr) as [pre ->].
    exists (NextEvent (Yield event) :: out ++ pre). simpl.
    rewrite <- app_assoc. reflexivity.
  - intros _. exists []. reflexivity.
  - discriminate.
Qed.

(** Without the abort flag there is no cancellation. *)
Lemma drain_calm fuel :
  (forall w, aborted env w = false) ->
  forall fcs w,
    ~ In (ConsoleError CancelNotice) (trace_of (drain env jsonlOutput fuel fcs w)).
Proof.
  intros Hcalm. induction fuel as [|fuel IH]; intros fcs w; simpl; [intros []|].
  destruct (nextEvent env w) as [[event| |e] w1]; simpl;
    try (intros [H|[]]; discriminate).
  rewrite Hcalm.
  pose proof (on_event_no_cancel env jsonlOutput event fcs w1) as Hq.
  destruct (on_event env jsonlOutput event fcs w1) as [[fcs1 w2] out].
  specialize (IH fcs1 w2).
  destruct (drain env jsonlOutput fuel fcs1 w2) as [[r w3] out']. simpl in *.
  intros [H|H]; [discriminate|]. apply in_app_or in H. tauto.
Qed.

Lemma session_loop_calm fuel :
  (forall w, aborted env w = false) ->
  forall msgs n w,
    ~ In (ConsoleError CancelNotice)
         (trace_of (session_loop env config prompt_id jsonlOutput fuel msgs n w)).
Proof.
  intros Hcalm. induction fuel as [|fuel IH]; intros msgs n w; simpl; [intros []|].
  destruct ((0 <=? maxSessionTurns config) && (maxSessionTurns config <? n + 1)).
  - simpl. intros [H|[]]. discriminate.
  - assert (Ht : ~ In (ConsoleError CancelNotice)
                      (trace_of (turn env prompt_id jsonlOutput fuel msgs w))).
    { unfold turn.
      pose proof (drain_calm fuel Hcalm []
                    (openStream env (first_parts msgs) prompt_id w)) as Hd.
      destruct (drain env jsonlOutput fuel [] _) as [[d w2] out]. simpl in Hd.
      destruct d as [[|fc rest]| | |]; cbv beta iota;
        try (simpl; intros [H|H]; [discriminate | contradiction]).
      - simpl. intros [H|H]; [discriminate|]. apply in_app_or in H.
        destruct H as [H|[H|[]]]; [contradiction | discriminate].
      - pose proof (tools_no_cancel env prompt_id jsonlOutput (fc :: rest) [] w2) as Hq.
        destruct (run_tools env prompt_id jsonlOutput (fc :: rest) [] w2)
          as [[r w3] out']. simpl in Hq.
        destruct r; simpl; (intros [H|H]; [discriminate|]); apply in_app_or in H; tauto. }
    destruct (turn env prompt_id jsonlOutput fuel msgs w) as [[r w1] out].
    simpl in Ht.
    destruct r as [next|site|e|]; simpl;
      try (intros [H|H]; [discriminate | contradiction]).
    specialize (IH next (n + 1) w1).
    destruct (session_loop env config prompt_id jsonlOutput fuel next (n + 1) w1)
      as [[r' w2] out']. simpl in *.
    intros [H|H]; [discriminate|]. apply in_app_or in H. tauto.
Qed.

(** The diagnostics of a tool loop are those of its calls, in their order. *)
Lemma run_tools_diagnostics fcs : forall acc w,
  let tr := trace_of (run_tools env prompt_id jsonlOutput fcs acc w) in
  diagnostics tr = flat_map tool_diagnostic (executions tr).
Proof.
  induction fcs as [|fc rest IH]; intros acc w; cbn zeta; [reflexivity|].
  cbn [run_tools].
  destruct (executeToolCall env
              (request_info prompt_id (fst (resolve_callId env fc w)) fc)
              (snd (resolve_callId env fc w))) as [[resp|e0] w2] eqn:He.
  - rewrite (run_tool_resolved env prompt_id jsonlOutput fc acc w resp w2 He).
    specialize (IH (push_response_parts acc (responseParts resp))
                   (if jsonlOutput then snd (now env w2) else w2)).
    destruct (run_tools env prompt_id jsonlOutput rest _ _) as [[r' w3] out'].
    cbn zeta in IH. simpl in IH. simpl.
    unfold diagnostics, executions in *.
    unfold result_writes, error_writes.
    destruct jsonlOutput; destruct (error resp) eqn:Herr; simpl;
      rewrite IH; unfold tool_diagnostic at 2; simpl; rewrite Herr; reflexivity.
  - rewrite (run_tool_rejected env prompt_id jsonlOutput fc acc w e0 w2 He).
    reflexivity.
Qed.

End OrderFacts.

(** X7.  The cancellation notice is tied to the abort flag: where the flag is
    never set, no run prints the notice and none returns at the cancellation
    point. *)
Theorem no_cancellation_without_abort :
  forall (World : Type) (env : Env World) (config : Config) (prompt_id : string)
         (jsonlOutput : bool) (fuel : nat) (input : string) (w : World),
    (forall w', aborted env w' = false) ->
    let run := runNonInteractive env config prompt_id jsonlOutput fuel input w in
    ~ In CancelNotice (diagnostics (trace_of run)) /\
    result_of run <> Resolved AtCancel.
Proof.
  intros World env config prompt_id jsonlOutput fuel input w Hcalm run. subst run.
  unfold runNonInteractive.
  pose proof (session_loop_calm env config prompt_id jsonlOutput fuel Hcalm
                [ {| role := "user"; parts := Some [text_part input] |} ] 0 w) as Hq.
  pose proof (session_loop_cancel_last env config prompt_id jsonlOutput fuel
                [ {| role := "user"; parts := Some [text_part input] |} ] 0 w) as Hc.
  destruct (session_loop env config prompt_id jsonlOutput fuel _ 0 w) as [[r w1] out].
  simpl in Hq, Hc.
  assert (Hr : r <> Returned AtCancel).
  { destruct Hc as [[_ Hn]|(pre & -> & _ & _)]; [exact Hn|].
    exfalso. apply Hq. apply in_or_app. right. left. reflexivity. }
  assert (Hd : forall tr, In CancelNotice (diagnostics tr) ->
                          In (ConsoleError CancelNotice) tr).
  { intros tr H. unfold diagnostics in H. apply in_flat_map in H.
    destruct H as (e & He & Ho). destruct e; simpl in Ho; try contradiction.
    destruct Ho as [->|[]]. exact He. }
  split.
  - intros H. apply Hd in H. unfold finalizer in H.
    destruct r as [site|e|]; simpl in H; (destruct H as [H|H]; [discriminate|]);
      try (apply in_app_or in H; destruct H as [H|H]); try contradiction;
      try destruct (isTelemetrySdkInitialized env w1); simpl in H; intuition discriminate.
  - destruct r as [site|e|]; simpl; try discriminate. congruence.
Qed.

(** The busy world never sets the abort flag. *)
Lemma no_cancellation_without_abort_witness :
  result_of (runNonInteractive busy_env (demo_config 2) "p1" true 5 "hello" false)
  <> Resolved AtCancel.
Proof.
  apply (no_cancellation_without_abort bool busy_env (demo_config 2) "p1" true 5%nat
           "hello" false).
  intros w'. reflexivity.
Defined.

(** X8.  Inside a turn the tools come after the stream: the trace of a turn
    is the call of the agent client, then what the reading of the stream
    does, then what the tool loop does (or the final line feed).  Nothing is
    executed while the stream is read, no event is awaited once a tool has
    run, and the second part is empty unless the stream came to its end. *)
Theorem tools_follow_stream :
  forall (World : Type) (env : Env World) (prompt_id : string) (jsonlOutput : bool)
         (fuel : nat) (msgs : list Content) (w : World),
    exists stream_out tools_out,
      trace_of (turn env prompt_id jsonlOutput fuel msgs w)
      = SendMessageStream (first_parts msgs) prompt_id :: stream_out ++ tools_out /\
      Forall (stream_effect jsonlOutput) stream_out /\
      Forall (after_stream_effect jsonlOutput) tools_out /\
      (tools_out <> [] -> exists pre, stream_out = pre ++ [NextEvent Done]).
Proof.
  intros World env prompt_id jsonlOutput fuel msgs w. unfold turn.
  pose proof (drain_effects env jsonlOutput fuel []
                (openStream env (first_parts msgs) prompt_id w)) as Hd.
  pose proof (drain_done_last env jsonlOutput fuel []
                (openStream env (first_parts msgs) prompt_id w)) as Hl.
  destruct (drain env jsonlOutput fuel [] _) as [[d w2] out]. simpl in Hd, Hl.
  destruct d as [[|fc rest]| | |]; cbv beta iota.
  - exists out, [StdoutWrite FinalNewline]. simpl.
    split; [reflexivity|]. split; [exact Hd|].
    split; [repeat constructor; right; reflexivity|].
    intros _. exact (Hl [] eq_refl).
  - pose proof (run_tools_effects env prompt_id jsonlOutput (fc :: rest) [] w2) as Hq.
    destruct (run_tools env prompt_id jsonlOutput (fc :: rest) [] w2) as [[r w3] out'].
    simpl in Hq. exists out, out'.
    assert (Hq' : Forall (after_stream_effect jsonlOutput) out')
      by (eapply Forall_impl; [|exact Hq]; intros a Ha; left; exact Ha).
    destruct r; simpl; (split; [reflexivity|]); (split; [exact Hd|]);
      (split; [exact Hq'|]); intros _; exact (Hl _ eq_refl).
  - exists out, []. simpl. rewrite app_nil_r.
    split; [reflexivity|]. split; [exact Hd|]. split; [constructor|].
    intros H. contradiction H. reflexivity.
  - exists out, []. simpl. rewrite app_nil_r.
    split; [reflexivity|]. split; [exact Hd|]. split; [constructor|].
    intros H. contradiction H. reflexivity.
  - exists out, []. simpl. rewrite app_nil_r.
    split; [reflexivity|]. split; [exact Hd|]. split; [constructor|].
    intros H. contradiction H. reflexivity.
Qed.

(** X9.  Every tool that reports an error gets one diagnostic, which names
    the tool and carries the display string, or the error message when the
    display string is missing or empty; a tool without error, and a call that
    throws, get none.  The diagnostics of a tool loop are these, in the order
    of the calls, in either output mode. *)
Theorem tool_error_diagnostics :
  forall (World : Type) (env : Env World) (prompt_id : string) (jsonlOutput : bool)
         (fcs : list FunctionCall) (acc : list Part) (w : World),
    let tr := trace_of (run_tools env prompt_id jsonlOutput fcs acc w) in
    diagnostics tr = flat_map tool_diagnostic (executions tr) /\
    Forall (fun d => exists tool detail,
                d = ToolErrorNotice tool detail /\
                diagnostic_text d
                = ("Error executing tool " ++ tool ++ ": " ++ detail)%string)
           (diagnostics tr).
Proof.
  intros World env prompt_id jsonlOutput fcs acc w tr.
  pose proof (run_tools_diagnostics env prompt_id jsonlOutput fcs acc w) as H.
  fold tr in H. split; [exact H|].
  rewrite H. apply Forall_forall. intros d Hd.
  apply in_flat_map in Hd. destruct Hd as ([req outcome] & _ & Hd).
  unfold tool_diagnostic in Hd. simpl in Hd.
  destruct outcome as [resp|e]; [|contradiction].
  destruct (error resp); [|contradiction].
  destruct Hd as [<-|[]]. eexists _, _. split; reflexivity.
Qed.

(* ================================================================== *)
(** ** Requests, calls and records                                     *)
(* ================================================================== *)

Section RecordFacts.

Context {World : Type}.
Variable env : Env World.
Variable config : Config.
Variable prompt_id : string.

Lemma on_event_tool_calls event fcs w :
  map (data_field "name")
      (records_of "tool_call" (trace_of (on_event env true event fcs w)))
  = map (fun r => Some (JStr (request_name r))) (requests [event]).
Proof.
  unfold on_event, timestamp. destruct event as [value|req|kind];
    destruct (now env w) as [t w']; reflexivity.
Qed.

Lemma drain_tool_calls fuel : forall fcs w fcs',
  result_of (drain env true fuel fcs w) = StreamDone fcs' ->
  let tr := trace_of (drain env true fuel fcs w) in
  map (data_field "name") (records_of "tool_call" tr)
  = map (fun r => Some (JStr (request_name r))) (requests (events_received tr)).
Proof.
  induction fuel as [|fuel IH]; intros fcs w fcs'; cbn zeta; simpl; [discriminate|].
  destruct (nextEvent env w) as [[event| |e] w1]; simpl; try discriminate;
    [|intros _; reflexivity].
  destruct (aborted env w1); simpl; [discriminate|].
  pose proof (on_event_tool_calls event fcs w1) as H1.
  destruct (on_event_collects env true event fcs w1) as (_ & H2 & _).
  destruct (on_event env true event fcs w1) as [[fcs1 w2] out].
  specialize (IH fcs1 w2 fcs').
  destruct (drain env true fuel fcs1 w2) as [[r w3] out']. cbn zeta in IH. simpl in *.
  intros Hr. specialize (IH Hr).
  change (NextEvent (Yield event) :: out ++ out')
    with ([NextEvent (Yield event)] ++ out ++ out').
  rewrite !records_of_app, !map_app, H1, IH.
  unfold events_received in *. rewrite !flat_map_app, H2. simpl.
  unfold requests. simpl. rewrite map_app. simpl. rewrite app_nil_r. reflexivity.
Qed.

Lemma run_tools_results fcs : forall acc w ps,
  result_of (run_tools env prompt_id true fcs acc w) = inr ps ->
  let tr := trace_of (run_tools env prompt_id true fcs acc w) in
  map (data_field "name") (records_of "tool_result" tr)
    = map (fun fc => Some (JStr (fc_name fc))) fcs /\
  records_of "tool_call" tr = [].
Proof.
  induction fcs as [|fc rest IH]; intros acc w ps; cbn zeta.
  - simpl. intros _. split; reflexivity.
  - cbn [run_tools].
    destruct (executeToolCall env
                (request_info prompt_id (fst (resolve_callId env fc w)) fc)
                (snd (resolve_callId env fc w))) as [[resp|e0] w2] eqn:He.
    + rewrite (run_tool_resolved env prompt_id true fc acc w resp w2 He).
      specialize (IH (push_response_parts acc (responseParts resp)) (snd (now env w2)) ps).
      destruct (run_tools env prompt_id true rest _ _) as [[r' w3] out'].
      cbn zeta in IH. simpl in IH. simpl. intros Hr.
      destruct (IH Hr) as [IH1 IH2]. clear IH.
      unfold result_writes, error_writes, records_of, records in *.
      destruct (error resp); simpl; rewrite ?flat_map_app, ?filter_app; simpl;
        rewrite IH1, IH2; split; reflexivity.
    + rewrite (run_tool_rejected env prompt_id true fc acc w e0 w2 He).
      simpl. discriminate.
Qed.


End RecordFacts.

(** X10.  In JSONL mode, a turn that ran its tools has written one
    tool_call record per request and one tool_result record per request, and
    the two sequences carry the same tool names, those of the requests in
    the order of their arrival. *)
Theorem tool_records_match :
  forall (World : Type) (env : Env World) (prompt_id : string) (fuel : nat)
         (msgs next : list Content) (w : World),
    result_of (turn env prompt_id true fuel msgs w) = TurnContinue next ->
    let tr := trace_of (turn env prompt_id true fuel msgs w) in
    let names := map (fun r => Some (JStr (request_name r)))
                     (requests (events_received tr)) in
    map (data_field "name") (records_of "tool_call" tr) = names /\
    map (data_field "name") (records_of "tool_result" tr) = names.
Proof.
  intros World env prompt_id fuel msgs next w Ht tr names.
  destruct (turn_decompose env prompt_id true fuel msgs w next Ht)
    as (fcs & w2 & out & ps & w3 & out' & Hd & _ & Hr & _ & Hturn).
  pose proof (drain_tool_calls env fuel [] (openStream env (first_parts msgs) prompt_id w)
                fcs) as Hcalls.
  pose proof (drain_collects env true fuel [] (openStream env (first_parts msgs) prompt_id w)
                fcs) as Hfcs.
  pose proof (drain_no_execution env true fuel []
                (openStream env (first_parts msgs) prompt_id w)) as [_ Hrx].
  rewrite Hd in Hcalls, Hfcs, Hrx. cbn zeta in Hcalls. simpl in Hcalls, Hfcs, Hrx.
  specialize (Hcalls eq_refl). specialize (Hfcs eq_refl).
  pose proof (run_tools_results env prompt_id fcs [] w2 ps) as Hres.
  pose proof (run_tools_complete env prompt_id true fcs [] w2 ps) as Hc.
  rewrite Hr in Hres, Hc. cbn zeta in Hres, Hc. simpl in Hres, Hc.
  destruct (Hres eq_refl) as [Hres1 Hres2].
  destruct (Hc eq_refl) as (_ & _ & _ & _ & Hev).
  assert (Hnames : names = map (fun r => Some (JStr (request_name r)))
                               (requests (events_received out))).
  { subst names tr. rewrite Hturn. simpl. unfold events_received in *.
    simpl. rewrite flat_map_app, Hev, app_nil_r. reflexivity. }
  subst tr. rewrite Hturn. simpl.
  change (SendMessageStream ?a ?b :: ?l) with ([SendMessageStream a b] ++ l).
  rewrite !records_of_app, !map_app, Hres2, Hrx, Hcalls, Hres1, Hnames.
  simpl. rewrite app_nil_r. split; [reflexivity|].
  rewrite Hfcs, map_map. reflexivity.
Qed.

(** The first turn of the scripted session: the search is announced and
    answered. *)
Lemma tool_records_match_witness :
  let tr := trace_of (turn script_env "p1" true 5 [user_message [text_part "hello"]]
                        demo_world) in
  map (data_field "name") (records_of "tool_call" tr) = [Some (JStr "search")] /\
  map (data_field "name") (records_of "tool_result" tr) = [Some (JStr "search")].
Proof.
  exact (tool_records_match Script script_env "p1" 5%nat
           [user_message [text_part "hello"]] [user_message []] demo_world eq_refl).
Defined.


(** X12.  Unless the turn limit is 0, a run begins by calling the agent
    client with the input as one text part, unchanged, be it empty: so says
    the trace, and this is the first call a client that is listened to
    receives. *)
Theorem input_is_sent_verbatim :
  forall (World : Type) (env : Env World) (config : Config) (prompt_id : string)
         (jsonlOutput : bool) (fuel : nat) (input : string) (w : World),
    maxSessionTurns config <> 0 ->
    (exists rest,
       trace_of (runNonInteractive env config prompt_id jsonlOutput (S fuel) input w)
       = PatchConsole (debugMode config)
           :: BeginTurn 1 [user_message [text_part input]]
           :: SendMessageStream [text_part input] prompt_id :: rest) /\
    (forall received, exists later,
       snd (world_of (runNonInteractive (spy env) config prompt_id jsonlOutput (S fuel)
                        input (w, received)))
       = received ++ ([text_part input], prompt_id) :: later).
Proof.
  intros World env config prompt_id jsonlOutput fuel input w HL.
  assert (Htrace : exists rest,
            trace_of (runNonInteractive env config prompt_id jsonlOutput (S fuel) input w)
            = PatchConsole (debugMode config)
                :: BeginTurn 1 [user_message [text_part input]]
                :: SendMessageStream [text_part input] prompt_id :: rest).
  { unfold runNonInteractive. cbn [session_loop].
    replace ((0 <=? maxSessionTurns config) && (maxSessionTurns config <? 0 + 1))
      with false
      by (symmetry; apply andb_false_iff;
          destruct (Z.leb_spec 0 (maxSessionTurns config));
            [right; apply Z.ltb_ge; lia | left; reflexivity]).
    destruct (turn_shape env prompt_id jsonlOutput fuel
                [ {| role := "user"; parts := Some [text_part input] |} ] w)
      as (body & Hb & _).
    destruct (turn env prompt_id jsonlOutput fuel _ w) as [[r w1] out].
    simpl in Hb. subst out.
    destruct r as [next|site|e|]; try (eexists; reflexivity).
    destruct (session_loop env config prompt_id jsonlOutput fuel next (0 + 1) w1)
      as [[[site|e|] w2] out']; eexists; reflexivity. }
  split; [exact Htrace|].
  intros received. rewrite spy_run. destruct Htrace as [rest ->].
  exists (map (fun ps => (ps, prompt_id)) (sends rest)). reflexivity.
Qed.

(** The empty input, with no turn limit. *)
Lemma input_is_sent_verbatim_witness :
  maxSessionTurns (demo_config (-1)) <> 0 /\
  (exists rest,
     trace_of (runNonInteractive script_env (demo_config (-1)) "p1" false 3 "" greeting_world)
     = PatchConsole (debugMode (demo_config (-1)))
         :: BeginTurn 1 [user_message [text_part ""]]
         :: SendMessageStream [text_part ""] "p1" :: rest) /\
  (forall received, exists later,
     snd (world_of (runNonInteractive (spy script_env) (demo_config (-1)) "p1" false 3 ""
                      (greeting_world, received)))
     = received ++ ([text_part ""], "p1"%string) :: later).
Proof.
  split; [discriminate|].
  apply (input_is_sent_verbatim Script script_env (demo_config (-1)) "p1" false
           2%nat ""%string greeting_world).
  discriminate.
Defined.
